(** * Client-side skill search and the random-number button

    A shallow embedding of [assets/js/search.js] (the search box controller
    built on MiniSearch) and of the compiled click handler of the
    random-number button, together with the properties stated about them.

    Conventions of the embedding:
    - a JavaScript string is the list of its UTF-16 code units, so that
      [length] is the [.length] of the source;
    - JavaScript numbers that carry scores and weights are exact rationals
      (finite values only); the focus index is an integer;
    - module-level variables and the two DOM elements the script touches
      form one explicit state record, threaded through every function;
    - the content of the dropdown is the list of elements the browser
      builds from the string assigned to [innerHTML], the interpolated
      fields being taken as text;
    - effects that leave the page state (console output, [preventDefault],
      a click on a result, [scrollIntoView]) are appended to a trace;
    - an [await] is sequential composition: the handlers have no other
      suspension point that a claim depends on;
    - what the engine and the library supply is a parameter (the case
      table of [toUpperCase], number formatting, [MiniSearch.loadJSON] and
      the [search] method of an index), except [Array.prototype.sort],
      which is given as a stable insertion sort. *)

From Stdlib Require Import Strings.String Strings.Ascii DecimalString.
From Stdlib Require Import List ZArith QArith Qabs Qround Bool Lia Lqa.
From Stdlib Require Import Permutation Sorted.
Import ListNotations.

#[local] Set Warnings "-register-all".

(** ** The JavaScript values the two scripts handle *)

Module Js.

(** A string, as its UTF-16 code units. *)
Definition jsstring : Type := list Z.

(** An ASCII literal of the source. *)
Definition lit (s : string) : jsstring :=
  map (fun a => Z.of_N (N_of_ascii a)) (list_ascii_of_string s).

Definition jsstring_eqb (a b : jsstring) : bool :=
  if list_eq_dec Z.eq_dec a b then true else false.

(** [WhiteSpace] and [LineTerminator] of ECMA-262, the code units that
    [String.prototype.trim] strips. *)
Definition isWhiteSpace (c : Z) : bool :=
  existsb (Z.eqb c)
    [9; 10; 11; 12; 13; 32; 160; 5760; 8232; 8233; 8239; 8287; 12288; 65279]%Z
  || ((8192 <=? c) && (c <=? 8202))%Z.

Fixpoint trimStart (s : jsstring) : jsstring :=
  match s with
  | [] => []
  | c :: r => if isWhiteSpace c then trimStart r else s
  end.

Definition trim (s : jsstring) : jsstring :=
  rev (trimStart (rev (trimStart s))).

(** What a [throw] or a rejected promise carries. *)
Inductive Exn : Type :=
| TypeError
| SyntaxError
| HttpError (status : Z)   (* new Error(`HTTP error! status: ${status}`) *)
| OtherError (tag : Z).

(** A value produced by [JSON.parse]. An object keeps its members in
    source order; a later duplicate key overrides an earlier one. *)
Inductive Json : Type :=
| JNull
| JBool (b : bool)
| JNumber (n : Q)
| JString (s : jsstring)
| JArray (elems : list Json)
| JObject (members : list (jsstring * Json)).

(** The [Response] a resolved [fetch] gives: [ok], [status], and what
    [json()] settles to. *)
Record Response : Type := mkResponse {
  ok : bool;
  status : Z;
  json : Exn + Json
}.

(** What [await fetch(url)] does: throw, or give a response. *)
Definition FetchOutcome : Type := (Exn + Response)%type.

End Js.

(** ** search.js *)

Module Search.
Import Js.

(** *** highlightMatch *)

(** The fourteen characters of the class [[.*+?^${}()|[\]\\]]. *)
Definition isSpecial (c : Z) : bool :=
  existsb (Z.eqb c) [46; 42; 43; 63; 94; 36; 123; 125; 40; 41; 124; 91; 93; 92]%Z.

(** [query.replace(/[.*+?^${}()|[\]\\]/g, '\\$&')] *)
Definition escapeRegExp (query : jsstring) : jsstring :=
  flat_map (fun c => if isSpecial c then [92%Z; c] else [c]) query.

(** The fragment of the pattern grammar that [new RegExp] is given here:
    a sequence of pattern characters and identity escapes.  The result is
    the literal the pattern denotes; [None] outside the fragment. *)
Fixpoint parseAtoms (p : jsstring) : option jsstring :=
  match p with
  | [] => Some []
  | c :: r =>
    if (c =? 92)%Z then
      match r with
      | d :: r' =>
        if isSpecial d then option_map (cons d) (parseAtoms r') else None
      | [] => None
      end
    else if isSpecial c then None
    else option_map (cons c) (parseAtoms r)
  end.

(** [`(${escapedQuery})`]: one capturing group around the atoms. *)
Definition parseGroup (p : jsstring) : option jsstring :=
  match p with
  | 40%Z :: r =>
    match rev r with
    | 41%Z :: body => parseAtoms (rev body)
    | _ => None
    end
  | _ => None
  end.

(** A piece of the replaced text: a code unit copied as it is, or one
    match, which the replacement ['<mark>$1</mark>'] wraps. *)
Inductive Segment : Type :=
| Plain (c : Z)
| Marked (m : jsstring).

Definition markOpen : jsstring := lit "<mark>"%string.
Definition markClose : jsstring := lit "</mark>"%string.

Definition segmentHtml (s : Segment) : jsstring :=
  match s with
  | Plain c => [c]
  | Marked m => markOpen ++ m ++ markClose
  end.

Definition segmentText (s : Segment) : jsstring :=
  match s with
  | Plain c => [c]
  | Marked m => m
  end.

(** The string [replace] returns. *)
Definition toHtml (segs : list Segment) : jsstring :=
  flat_map segmentHtml segs.

(** The same with the inserted tags left out. *)
Definition unmark (segs : list Segment) : jsstring :=
  flat_map segmentText segs.

(** The indices of the text at which the marked segments start, when the
    first segment starts at [offset]. *)
Fixpoint markedStarts (segs : list Segment) (offset : nat) : list nat :=
  match segs with
  | [] => []
  | Plain _ :: r => markedStarts r (S offset)
  | Marked m :: r => offset :: markedStarts r (offset + length m)
  end.

(** *** Data of the page *)

(** A hit of [MiniSearch.search]: the score and the stored fields. *)
Record Result : Type := mkResult {
  id : jsstring;
  name : jsstring;
  description : jsstring;
  path : jsstring;
  weight : Q;
  score : Q
}.

Inductive Combine : Type := AND | OR.

Record SearchOptions : Type := mkSearchOptions {
  boostName : Q;
  boostDescription : Q;
  boostTags : Q;
  boostContent : Q;
  fuzzy : Q;
  prefix : bool;
  combineWith : Combine
}.

(** A MiniSearch instance, as far as this script uses it: its [search]
    method, which returns hits or throws. *)
Record SearchIndex : Type := mkSearchIndex {
  search : jsstring -> SearchOptions -> Exn + list Result
}.

Record LoadOptions : Type := mkLoadOptions {
  fields : list string;
  storeFields : list string;
  searchOptions : SearchOptions
}.

(** The fixed texts given to the console. *)
Inductive Message : Type :=
| MsgIndexLoaded      (* '✅ 搜尋索引載入完成' *)
| MsgLoadFailed       (* '❌ 載入搜尋索引失敗:' *)
| MsgIndexNotLoaded   (* '搜尋索引尚未載入' *)
| MsgSearchError.     (* '搜尋錯誤:' *)

Inductive Effect : Type :=
| ConsoleLog (m : Message)
| ConsoleWarn (m : Message)
| ConsoleError (m : Message) (e : Exn)
| PreventDefault
| Click (index : nat)
| ScrollIntoView (index : nat).

(** One [<a class="search-result-item ...">] of the dropdown, with the
    values the template interpolates. *)
Record ResultItem : Type := mkResultItem {
  href : jsstring;
  active : bool;            (* the class 'active' *)
  dataIndex : nat;
  nameHtml : jsstring;
  descHtml : jsstring;
  relevance : Z;
  weightText : Q
}.

(** The children of the dropdown after the browser has parsed what was
    assigned to [innerHTML]: the no-results [<div>] or result links.
    The empty list is [innerHTML = '']. *)
Inductive Node : Type :=
| NoResults
| ResultLink (item : ResultItem).

Record State : Type := mkState {
  searchIndex : option SearchIndex;
  currentFocusIndex : Z;
  searchResults : list Result;
  inputValue : jsstring;       (* searchInput.value *)
  inputFocused : bool;         (* searchInput has the focus *)
  dropdownHTML : list Node;    (* searchDropdown.innerHTML *)
  dropdownShow : bool;         (* 'show' in searchDropdown.classList *)
  effects : list Effect
}.

Definition initialState : State :=
  mkState None (-1) [] [] false [] false [].

Definition setSearchIndex (v : option SearchIndex) (st : State) : State :=
  mkState v (currentFocusIndex st) (searchResults st) (inputValue st)
          (inputFocused st) (dropdownHTML st) (dropdownShow st) (effects st).

Definition setFocusIndex (v : Z) (st : State) : State :=
  mkState (searchIndex st) v (searchResults st) (inputValue st)
          (inputFocused st) (dropdownHTML st) (dropdownShow st) (effects st).

Definition setSearchResults (v : list Result) (st : State) : State :=
  mkState (searchIndex st) (currentFocusIndex st) v (inputValue st)
          (inputFocused st) (dropdownHTML st) (dropdownShow st) (effects st).

Definition setInputFocused (v : bool) (st : State) : State :=
  mkState (searchIndex st) (currentFocusIndex st) (searchResults st)
          (inputValue st) v (dropdownHTML st) (dropdownShow st) (effects st).

Definition setDropdownHTML (v : list Node) (st : State) : State :=
  mkState (searchIndex st) (currentFocusIndex st) (searchResults st)
          (inputValue st) (inputFocused st) v (dropdownShow st) (effects st).

Definition setDropdownShow (v : bool) (st : State) : State :=
  mkState (searchIndex st) (currentFocusIndex st) (searchResults st)
          (inputValue st) (inputFocused st) (dropdownHTML st) v (effects st).

Definition emit (e : Effect) (st : State) : State :=
  mkState (searchIndex st) (currentFocusIndex st) (searchResults st)
          (inputValue st) (inputFocused st) (dropdownHTML st)
          (dropdownShow st) (effects st ++ [e]).

Definition setActive (v : bool) (it : ResultItem) : ResultItem :=
  mkResultItem (href it) v (dataIndex it) (nameHtml it) (descHtml it)
               (relevance it) (weightText it).

(** [searchDropdown.querySelectorAll('.search-result-item')] *)
Fixpoint resultItems (nodes : list Node) : list ResultItem :=
  match nodes with
  | [] => []
  | NoResults :: r => resultItems r
  | ResultLink it :: r => it :: resultItems r
  end.

(** [resultItems.forEach((item, index) => ...)] where the callback
    changes the item in place; [i] is the index of the next item. *)
Fixpoint forEachItem (f : nat -> ResultItem -> ResultItem) (i : nat)
         (nodes : list Node) : list Node :=
  match nodes with
  | [] => []
  | NoResults :: r => NoResults :: forEachItem f i r
  | ResultLink it :: r => ResultLink (f i it) :: forEachItem f (S i) r
  end.

(** [array.map((x, index) => ...)], counting from [i]. *)
Fixpoint mapIndexed {A B : Type} (f : nat -> A -> B) (i : nat) (l : list A)
  : list B :=
  match l with
  | [] => []
  | x :: r => f i x :: mapIndexed f (S i) r
  end.

(** [Math.round]: to the nearest integer, a half goes up. *)
Definition Math_round (x : Q) : Z := Qfloor (x + (1 # 2)).

(** [x > y] on numbers. *)
Definition Qgtb (x y : Q) : bool := negb (Qle_bool x y).

(** *** The comparator of performSearch and the sort *)

(** The comparator, on exact values.  The code subtracts doubles and
    compares with the double 0.1: the branch taken is the same as here
    when the exact gap of the scores is at most 1/10 or above 1/8. *)
Definition byRelevance (a b : Result) : Q :=
  let scoreDiff := (score b - score a)%Q in
  if Qgtb (Qabs scoreDiff) (1 # 10) then scoreDiff
  else (weight b - weight a)%Q.

(** [Array.prototype.sort(compare)].  The language asks for a stable sort
    and leaves the algorithm to the engine; it is taken here as a stable
    insertion sort: each element in turn goes into the part already sorted,
    passing from the right the elements the comparator puts after it
    ([compare p x > 0]).  [racc] is that part, last element first.  On
    hit lists on which the comparator is a consistent order every engine
    stores the same order; on others (the comparator is not transitive)
    the stored order is the engine's, and nothing is stated about it. *)
Fixpoint insertSorted {A : Type} (compare : A -> A -> Q) (x : A)
         (racc : list A) : list A :=
  match racc with
  | [] => [x]
  | p :: rest =>
    if Qgtb (compare p x) 0 then p :: insertSorted compare x rest
    else x :: racc
  end.

Definition Array_sort {A : Type} (compare : A -> A -> Q) (l : list A)
  : list A :=
  rev (fold_left (fun racc x => insertSorted compare x racc) l []).

(** What the sorted list is to satisfy for [a] just before [b]: the score
    of [a] is more than 0.1 above that of [b], or the scores are within
    0.1 and the weight of [a] is not below that of [b]. *)
Definition inOrder (a b : Result) : Prop :=
  (1 # 10 < score a - score b)%Q
  \/ (Qabs (score a - score b) <= 1 # 10 /\ weight b <= weight a)%Q.

(** The options every [search] call is given. *)
Definition queryOptions : SearchOptions :=
  mkSearchOptions 3 2 (3 # 2) 1 (1 # 5) true OR.

Definition loadOptions : LoadOptions :=
  mkLoadOptions
    ["name"; "description"; "content"; "tags"]%string
    ["id"; "name"; "description"; "path"; "weight"]%string
    (mkSearchOptions 3 2 (3 # 2) 1 (1 # 5) true AND).

(** The number of result links in the dropdown. *)
Definition itemCount (st : State) : nat :=
  length (resultItems (dropdownHTML st)).

(** [toUpperCase] on the ASCII range, where it agrees with every engine:
    the table used to run the functions on ASCII examples. *)
Definition asciiUpperCase (c : Z) : jsstring :=
  if ((97 <=? c) && (c <=? 122))%Z then [(c - 32)%Z] else [c].

Section Engine.

(** [String.prototype.toUpperCase] on a one-unit string: the Unicode
    table of the engine. *)
Variable toUpperCase : Z -> jsstring.

(** [Canonicalize] of ECMA-262 for the flag [i] without [u]. *)
Definition Canonicalize (ch : Z) : Z :=
  match toUpperCase ch with
  | [cu] => if ((128 <=? ch) && (cu <? 128))%Z then ch else cu
  | _ => ch
  end.

(** The literal [pat] matches at the head of [text]. *)
Fixpoint matchesHere (pat text : jsstring) : bool :=
  match pat, text with
  | [], _ => true
  | _ :: _, [] => false
  | a :: pat', b :: text' =>
    (Canonicalize a =? Canonicalize b)%Z && matchesHere pat' text'
  end.

(** The loop of [RegExp.prototype[Symbol.replace]] with the flag [g]:
    the scan goes left to right, a match is taken where it is found and
    the scan resumes after it.  [skip] counts the units of the current
    match that are still to be passed.  The literal is not empty
    here: [highlightMatch] returns before for an empty query. *)
Fixpoint scan (pat text : jsstring) (skip : nat) : list Segment :=
  match text with
  | [] => []
  | c :: rest =>
    match skip with
    | S k => scan pat rest k
    | O =>
      if matchesHere pat text
      then Marked (firstn (length pat) text) :: scan pat rest (length pat - 1)
      else Plain c :: scan pat rest 0
    end
  end.

(** The segments [text.replace(regex, '<mark>$1</mark>')] is made of;
    a pattern outside the fragment leaves the text as it is. *)
Definition highlightSegments (text query : jsstring) : list Segment :=
  let escapedQuery := escapeRegExp query in
  match parseGroup (40%Z :: escapedQuery ++ [41%Z]) with
  | Some pat => scan pat text 0
  | None => map Plain text
  end.

Definition highlightMatch (text query : jsstring) : jsstring :=
  match query, text with
  | [], _ => text
  | _, [] => text
  | _, _ => toHtml (highlightSegments text query)
  end.

(** *** renderResults *)

Definition renderItem (query : jsstring) (focus : Z) (index : nat)
           (result : Result) : Node :=
  ResultLink
    (mkResultItem (path result)
                  (Z.of_nat index =? focus)%Z
                  index
                  (highlightMatch (name result) query)
                  (highlightMatch (description result) query)
                  (Math_round (score result * 100))
                  (weight result)).

(** [bindResultEvents] attaches the mouse listeners (the handlers
    [onMouseEnter] and [onMouseLeave] below); it changes nothing. *)
Definition bindResultEvents (st : State) : State := st.

Definition renderResults (results : list Result) (st : State) : State :=
  match results with
  | [] => setDropdownShow true (setDropdownHTML [NoResults] st)
  | _ :: _ =>
    let query := trim (inputValue st) in
    let html :=
      mapIndexed (renderItem query (currentFocusIndex st)) 0
                 (firstn 8 results) in
    bindResultEvents (setDropdownShow true (setDropdownHTML html st))
  end.

Definition onMouseEnter (index : nat) (st : State) : State :=
  setFocusIndex (Z.of_nat index)
    (setDropdownHTML
       (forEachItem (fun i it => setActive (i =? index)%nat it) 0
                    (dropdownHTML st)) st).

Definition onMouseLeave (index : nat) (st : State) : State :=
  setFocusIndex (-1)
    (setDropdownHTML
       (forEachItem
          (fun i it => if (i =? index)%nat then setActive false it else it)
          0 (dropdownHTML st)) st).

(** *** performSearch *)

Definition clearDropdown (st : State) : State :=
  setDropdownShow false (setDropdownHTML [] st).

Definition performSearch (query : jsstring) (st : State) : State :=
  match searchIndex st with
  | None => emit (ConsoleWarn MsgIndexNotLoaded) st
  | Some index =>
    if (length query <? 2)%nat then
      setFocusIndex (-1) (setSearchResults [] (clearDropdown st))
    else
      match search index query queryOptions with
      | inr results =>
        let sorted := Array_sort byRelevance results in
        renderResults sorted (setSearchResults sorted st)
      | inl error => emit (ConsoleError MsgSearchError error) st
      end
  end.

(** *** handleKeyboardNavigation *)

Definition updateActiveResult (st : State) : State :=
  let focus := currentFocusIndex st in
  let nodes := dropdownHTML st in
  let scrolled :=
    flat_map
      (fun i => if (Z.of_nat i =? focus)%Z then [ScrollIntoView i] else [])
      (seq 0 (length (resultItems nodes))) in
  mkState (searchIndex st) focus (searchResults st) (inputValue st)
          (inputFocused st)
          (forEachItem (fun i it => setActive (Z.of_nat i =? focus)%Z it)
                       0 nodes)
          (dropdownShow st) (effects st ++ scrolled).

(** The argument is [e.key]. *)
Definition handleKeyboardNavigation (key : string) (st : State) : State :=
  let count := length (resultItems (dropdownHTML st)) in
  if (count =? 0)%nat then st
  else if (key =? "ArrowDown")%string then
    let st := emit PreventDefault st in
    updateActiveResult
      (setFocusIndex
         (Z.min (currentFocusIndex st + 1) (Z.of_nat count - 1)) st)
  else if (key =? "ArrowUp")%string then
    let st := emit PreventDefault st in
    updateActiveResult
      (setFocusIndex (Z.max (currentFocusIndex st - 1) (-1)) st)
  else if (key =? "Enter")%string then
    let st := emit PreventDefault st in
    if ((0 <=? currentFocusIndex st)
        && (currentFocusIndex st <? Z.of_nat count))%Z
    then emit (Click (Z.to_nat (currentFocusIndex st))) st
    else st
  else if (key =? "Escape")%string then
    setFocusIndex (-1) (setInputFocused false (clearDropdown st))
  else st.

(** *** loadSearchIndex and the listeners of init *)

(** [MiniSearch.loadJSON]: the library builds the instance or throws. *)
Variable MiniSearch_loadJSON : Json -> LoadOptions -> Exn + SearchIndex.

Definition loadSearchIndex (fetched : FetchOutcome) (st : State) : State :=
  let catch error := emit (ConsoleError MsgLoadFailed error) st in
  match fetched with
  | inl error => catch error
  | inr response =>
    if negb (ok response) then catch (HttpError (status response))
    else
      match json response with
      | inl error => catch error
      | inr data =>
        match MiniSearch_loadJSON data loadOptions with
        | inl error => catch error
        | inr index =>
          emit (ConsoleLog MsgIndexLoaded) (setSearchIndex (Some index) st)
        end
      end
  end.

(** The input listener, when the debounce timer fires. *)
Definition onInput (st : State) : State :=
  performSearch (trim (inputValue st)) st.

Definition onFocus (st : State) : State :=
  let st := setInputFocused true st in
  if (2 <=? length (trim (inputValue st)))%nat
  then performSearch (trim (inputValue st)) st
  else st.

(** The click listener of the document; [inside] says that the target
    is within the input or the dropdown. *)
Definition onDocumentClick (inside : bool) (st : State) : State :=
  if inside then st else setFocusIndex (-1) (clearDropdown st).

End Engine.

(** The ways the index download fails, with what the [catch] receives:
    the fetch throws, the status is not ok, the body does not parse. *)
Inductive LoadFailure : FetchOutcome -> Exn -> Prop :=
| NetworkFailure : forall error, LoadFailure (inl error) error
| StatusFailure : forall response,
    ok response = false ->
    LoadFailure (inr response) (HttpError (status response))
| ParseFailure : forall response error,
    ok response = true ->
    json response = inl error ->
    LoadFailure (inr response) error.

(** *** Data for running the functions *)

(** An index in which no query has a hit. *)
Definition emptyIndex : SearchIndex := mkSearchIndex (fun _ _ => inr []).

(** An index that answers every query with the given hits. *)
Definition fixedIndex (hits : list Result) : SearchIndex :=
  mkSearchIndex (fun _ _ => inr hits).

(** A hit with score [s] and weight [w]; [n] is a digit, its id. *)
Definition hit (n : nat) (s w : Q) : Result :=
  mkResult [Z.of_nat n + 48]%Z (lit "Rocq proofs") (lit "a proof assistant")
           (lit "/skills/rocq") w s.

(** Ten hits whose scores fall by a quarter from one to the next. *)
Definition tenHits : list Result :=
  map (fun n => hit n (3 - inject_Z (Z.of_nat n) / 4) 1) (seq 0 10).

(** The page after a load, with [value] typed into the focused input. *)
Definition loadedPage (index : SearchIndex) (value : jsstring) : State :=
  mkState (Some index) (-1) [] value true [] false [].

Definition isArrow (key : string) : Prop :=
  key = "ArrowDown"%string \/ key = "ArrowUp"%string.

(** A run of key presses, each handled in the state the previous left. *)
Definition pressAll (keys : list string) (st : State) : State :=
  fold_left (fun s key => handleKeyboardNavigation key s) keys st.

(** *** debounce *)

(** [debounce(fn, delay)] keeps one timer.  A call clears it and sets a new
    one that holds the arguments of that call; when the timer runs out, [fn]
    is called with them.  [None] is "no timer pending". *)
Inductive DebounceEvent (Arg : Type) : Type :=
| Call (args : Arg)
| Elapse.

Arguments Call {Arg} args.
Arguments Elapse {Arg}.

(** One event: the timer afterwards and the calls of [fn] it caused. *)
Definition debounceStep {Arg : Type} (ev : DebounceEvent Arg)
           (timer : option Arg) : option Arg * list Arg :=
  match ev with
  | Call args => (Some args, [])
  | Elapse =>
    match timer with
    | Some args => (None, [args])
    | None => (None, [])
    end
  end.

(** The arguments [fn] is called with, in order, over a run of events. *)
Fixpoint debounceRun {Arg : Type} (evs : list (DebounceEvent Arg))
         (timer : option Arg) : list Arg :=
  match evs with
  | [] => []
  | ev :: rest =>
    let (timer', calls) := debounceStep ev timer in
    calls ++ debounceRun rest timer'
  end.

(** *** The page as init wires it *)

Definition setInputValue (v : jsstring) (st : State) : State :=
  mkState (searchIndex st) (currentFocusIndex st) (searchResults st) v
          (inputFocused st) (dropdownHTML st) (dropdownShow st) (effects st).

(** What reaches a listener that init or bindResultEvents has attached.
    [Input v]: the user edits the input, whose value becomes [v].
    [TimerFires]: the timer of the debounced input listener runs out.
    [MouseEnter i], [MouseLeave i]: the pointer enters or leaves the
    result item at index [i]. *)
Inductive Event : Type :=
| Input (value : jsstring)
| TimerFires
| KeyDown (key : string)
| DocumentClick (inside : bool)
| Focus
| MouseEnter (index : nat)
| MouseLeave (index : nat).

(** The state of the script and of the two elements, and the timer of the
    debounced listener (its argument is the event, of which the listener
    reads the value the input has when the timer runs out). *)
Record Page : Type := mkPage {
  state : State;
  timer : option unit
}.

Definition isLink (n : Node) : bool :=
  match n with
  | ResultLink _ => true
  | NoResults => false
  end.

(** The number of result items that carry the class 'active'. *)
Definition activeCount (nodes : list Node) : nat :=
  length (filter active (resultItems nodes)).

Section Wiring.

Variable toUpperCase : Z -> jsstring.

(** One event.  The mouse listeners exist on the items that are in the
    dropdown, so an index past them reaches no listener. *)
Definition dispatch (ev : Event) (p : Page) : Page :=
  let st := state p in
  match ev with
  | Input v =>
    mkPage (setInputValue v st) (fst (debounceStep (Call tt) (timer p)))
  | TimerFires =>
    match debounceStep (@Elapse unit) (timer p) with
    | (timer', _ :: _) => mkPage (onInput toUpperCase st) timer'
    | (timer', []) => mkPage st timer'
    end
  | KeyDown key => mkPage (handleKeyboardNavigation key st) (timer p)
  | DocumentClick inside => mkPage (onDocumentClick inside st) (timer p)
  | Focus => mkPage (onFocus toUpperCase st) (timer p)
  | MouseEnter i =>
    if (i <? itemCount st)%nat then mkPage (onMouseEnter i st) (timer p)
    else p
  | MouseLeave i =>
    if (i <? itemCount st)%nat then mkPage (onMouseLeave i st) (timer p)
    else p
  end.

Definition dispatchAll (evs : list Event) (p : Page) : Page :=
  fold_left (fun q ev => dispatch ev q) evs p.

End Wiring.

(** *** Orders the ranking is compared with *)

(** By score, the higher first; at equal scores by weight, the higher
    first. *)
Definition byScoreThenWeight (a b : Result) : Prop :=
  (score b < score a)%Q \/ (score a == score b /\ weight b <= weight a)%Q.

(** No two hits have different scores within 1/8 of each other.  The
    margin above 0.1 is there for the doubles of the code: a gap above 1/8
    stays above the double 0.1 when the difference is rounded. *)
Definition scoresEqualOrApart (hits : list Result) : Prop :=
  forall a b, In a hits -> In b hits ->
    (score a == score b)%Q \/ (1 # 8 < Qabs (score a - score b))%Q.

(** A hit whose fields the template of renderResults takes as text: no
    ["<"] in the name or in the description, no double quote in the path.
    For such hits the elements the browser builds from the string given to
    [innerHTML] are the ones [renderItem] gives, one link for each hit. *)
Definition isPlainHit (r : Result) : bool :=
  negb (existsb (Z.eqb 60) (name r))
  && negb (existsb (Z.eqb 60) (description r))
  && negb (existsb (Z.eqb 34) (path r)).

(** Every hit the index of the page can return is a plain one. *)
Definition plainIndex (index : option SearchIndex) : Prop :=
  forall built query options hits,
    index = Some built ->
    search built query options = inr hits ->
    forallb isPlainHit hits = true.

(** The state when the script starts: the three variables as their
    declarations set them, the dropdown empty and hidden; the input holds
    [value]. *)
Definition startState (value : jsstring) (focused : bool) : State :=
  mkState None (-1) [] value focused [] false [].

(** Any two hits have scores within 0.1 of each other. *)
Definition scoresClose (hits : list Result) : Prop :=
  forall a b, In a hits -> In b hits ->
    (Qabs (score a - score b) <= 1 # 10)%Q.

(** *** What the listeners keep *)

(** The class 'show' is on the dropdown exactly when it has content. *)
Definition showMatchesContent (st : State) : Prop :=
  dropdownShow st = true <-> dropdownHTML st <> [].

(** The dropdown is empty, or holds the no-results message alone, or holds
    between one and eight result links and nothing else. *)
Definition dropdownShape (nodes : list Node) : Prop :=
  nodes = [] \/ nodes = [NoResults]
  \/ (forallb isLink nodes = true /\ (1 <= length nodes <= 8)%nat).

(** Nothing has been rendered and no index is there to render with. *)
Definition searchDisabled (st : State) : Prop :=
  searchIndex st = None /\ dropdownHTML st = [] /\ dropdownShow st = false
  /\ currentFocusIndex st = (-1)%Z.

(** How one run of a listener can change what the dropdown shows: it keeps
    it; it clears it; it renders anew, which takes a loaded index; or, with
    items present, it goes over the items and sets their classes. *)
Inductive Change (st st' : State) : Prop :=
| Kept :
    dropdownHTML st' = dropdownHTML st ->
    dropdownShow st' = dropdownShow st ->
    currentFocusIndex st' = currentFocusIndex st ->
    Change st st'
| Cleared :
    dropdownHTML st' = [] ->
    dropdownShow st' = false ->
    currentFocusIndex st' = (-1)%Z ->
    Change st st'
| Rendered :
    searchIndex st <> None ->
    dropdownShape (dropdownHTML st') ->
    dropdownHTML st' <> [] ->
    (activeCount (dropdownHTML st') <= 1)%nat ->
    dropdownShow st' = true ->
    currentFocusIndex st' = currentFocusIndex st ->
    Change st st'
| Remarked :
    (1 <= itemCount st)%nat ->
    (exists f, dropdownHTML st' = forEachItem f 0 (dropdownHTML st)) ->
    ((activeCount (dropdownHTML st') <= 1)%nat
     \/ (activeCount (dropdownHTML st') <= activeCount (dropdownHTML st))%nat) ->
    dropdownShow st' = dropdownShow st ->
    ((-1 <= currentFocusIndex st)%Z -> (-1 <= currentFocusIndex st')%Z) ->
    (currentFocusIndex st'
     <= Z.max (currentFocusIndex st) (Z.of_nat (itemCount st) - 1))%Z ->
    Change st st'.

(** *** More data for running the functions *)

(** An index whose search throws. *)
Definition throwingIndex : SearchIndex :=
  mkSearchIndex (fun _ _ => inl (OtherError 1)).

(** The page showing the eight items that ["ro"] gives on [tenHits]. *)
Definition shownPage : State :=
  performSearch asciiUpperCase (lit "ro")
                (loadedPage (fixedIndex tenHits) (lit "ro")).

(** Typing, waiting, moving through the items with keys and pointer,
    leaving the dropdown, coming back, typing again. *)
Definition sampleEvents : list Event :=
  [Input (lit "r"); Input (lit "ro"); TimerFires; KeyDown "ArrowDown";
   MouseEnter 3; KeyDown "ArrowDown"; MouseLeave 3; KeyDown "Enter";
   DocumentClick false; Focus; KeyDown "ArrowUp"; Input (lit " "); TimerFires;
   KeyDown "Escape"].

(** Typing, waiting, and moving through the items; the dropdown is left
    open. *)
Definition browseEvents : list Event :=
  [Input (lit "ro"); TimerFires; KeyDown "ArrowDown"; MouseEnter 3;
   KeyDown "ArrowDown"; MouseLeave 3; KeyDown "ArrowDown"].

(** Three hits, two of equal score. *)
Definition tiedHits : list Result := [hit 0 1 1; hit 1 3 0; hit 2 1 5].

(** Three hits with scores within 0.1 of each other. *)
Definition closeHits : list Result :=
  [hit 0 (100 # 100) 2; hit 1 (105 # 100) 7; hit 2 (95 # 100) 4].

End Search.

(** ** The random-number button *)

Module Play.
Import Js.

(** ['隨機數字是：'], the fixed part of the template literal. *)
Definition successPrefix : jsstring :=
  [38568; 27231; 25976; 23383; 26159; 65306]%Z.

(** ['取得失敗'] *)
Definition failureMessage : jsstring := [21462; 24471; 22833; 25943]%Z.

(** What a property read gives: a parsed value or [undefined]. *)
Inductive Value : Type :=
| Undefined
| OfJson (j : Json).

(** The member a key names: the last one in source order. *)
Definition getMember (key : jsstring) (members : list (jsstring * Json))
  : option Json :=
  fold_left
    (fun found kv => if jsstring_eqb (fst kv) key then Some (snd kv) else found)
    members None.

Definition hasMember (key : jsstring) (members : list (jsstring * Json))
  : bool :=
  existsb (fun kv => jsstring_eqb (fst kv) key) members.

(** [data.number]: reading a property of [null] throws; a primitive or
    an array has no such property; an object gives its own member. *)
Definition getNumber (data : Json) : Exn + Value :=
  match data with
  | JNull => inl TypeError
  | JObject members =>
    inr match getMember (lit "number"%string) members with
        | Some v => OfJson v
        | None => Undefined
        end
  | _ => inr Undefined
  end.

Section Engine.

(** [Number.prototype.toString], the engine's number formatting. *)
Variable Number_toString : Q -> jsstring.

(** [ToString] on a parsed value.  An array is joined with commas, a
    [null] element giving the empty string.  A plain object gives
    ['[object Object]'], unless it has a member [toString] of its own:
    that member is not callable, [valueOf] gives no primitive either,
    and the conversion throws. *)
Fixpoint ToString (j : Json) : Exn + jsstring :=
  match j with
  | JNull => inr (lit "null"%string)
  | JBool b => inr (lit (if b then "true" else "false")%string)
  | JNumber n => inr (Number_toString n)
  | JString s => inr s
  | JArray elems =>
    (fix join (l : list Json) : Exn + jsstring :=
       match l with
       | [] => inr []
       | e :: r =>
         match (match e with JNull => inr [] | _ => ToString e end) with
         | inl error => inl error
         | inr s =>
           match r with
           | [] => inr s
           | _ :: _ =>
             match join r with
             | inl error => inl error
             | inr t => inr (s ++ 44%Z :: t)
             end
           end
         end
       end) elems
  | JObject members =>
    if hasMember (lit "toString"%string) members then inl TypeError
    else inr (lit "[object Object]"%string)
  end.

Definition valueToString (v : Value) : Exn + jsstring :=
  match v with
  | Undefined => inr (lit "undefined"%string)
  | OfJson j => ToString j
  end.

(** The template literal [`隨機數字是：${data.number}`]. *)
Definition successMessage (data : Json) : Exn + jsstring :=
  match getNumber data with
  | inl error => inl error
  | inr v =>
    match valueToString v with
    | inl error => inl error
    | inr s => inr (successPrefix ++ s)
    end
  end.

(** The click listener of the button: from what the fetch does and the
    text the result element shows, to the text it shows afterwards. *)
Definition onClick (fetched : FetchOutcome) (textContent : jsstring)
  : jsstring :=
  match fetched with
  | inl _ => failureMessage
  | inr resp =>
    match json resp with
    | inl _ => failureMessage
    | inr data =>
      match successMessage data with
      | inl _ => failureMessage
      | inr message => message
      end
    end
  end.

End Engine.

(** The fetch throws, or the body does not parse as JSON. *)
Definition fetchOrParseThrows (fetched : FetchOutcome) : bool :=
  match fetched with
  | inl _ => true
  | inr resp => match json resp with inl _ => true | inr _ => false end
  end.

(** [Number.prototype.toString] on integers: the decimal digits of the
    numerator.  Used to run the handler on examples. *)
Definition integerToString (n : Q) : jsstring :=
  lit (DecimalString.NilZero.string_of_int (Z.to_int (Qnum n))).

(** A value whose conversion to a string throws: an object with a member
    [toString] of its own, or an array that holds such a value. *)
Fixpoint ownToStringInside (j : Json) : bool :=
  match j with
  | JArray elems => existsb ownToStringInside elems
  | JObject members => hasMember (lit "toString"%string) members
  | _ => false
  end.

(** The parsed bodies for which building the success text throws. *)
Definition numberFieldThrows (data : Json) : bool :=
  match data with
  | JNull => true
  | JObject members =>
    match getMember (lit "number"%string) members with
    | Some v => ownToStringInside v
    | None => false
    end
  | _ => false
  end.

End Play.

(** ** Properties of the keyboard navigation *)

Section Keyboard.
Import Js Search.

Lemma resultItems_forEachItem :
  forall f nodes i,
    length (resultItems (forEachItem f i nodes)) = length (resultItems nodes).
Proof.
  intros f nodes; induction nodes as [|[|it] r IH]; intro i; simpl; auto.
Qed.

Lemma itemCount_updateActiveResult :
  forall st, itemCount (updateActiveResult st) = itemCount st.
Proof.
  intro st; unfold itemCount, updateActiveResult; simpl.
  apply resultItems_forEachItem.
Qed.

Lemma arrowDown_focus :
  forall st, (1 <= itemCount st)%nat ->
    currentFocusIndex (handleKeyboardNavigation "ArrowDown" st)
    = Z.min (currentFocusIndex st + 1) (Z.of_nat (itemCount st) - 1).
Proof.
  intros st Hn. unfold handleKeyboardNavigation. fold (itemCount st).
  destruct (Nat.eqb_spec (itemCount st) 0) as [E|_]; [lia|].
  reflexivity.
Qed.

Lemma arrowUp_focus :
  forall st, (1 <= itemCount st)%nat ->
    currentFocusIndex (handleKeyboardNavigation "ArrowUp" st)
    = Z.max (currentFocusIndex st - 1) (-1).
Proof.
  intros st Hn. unfold handleKeyboardNavigation. fold (itemCount st).
  destruct (Nat.eqb_spec (itemCount st) 0) as [E|_]; [lia|].
  reflexivity.
Qed.

Lemma arrow_keeps_items :
  forall key st, isArrow key ->
    itemCount (handleKeyboardNavigation key st) = itemCount st.
Proof.
  intros key st [-> | ->]; unfold handleKeyboardNavigation;
    fold (itemCount st);
    destruct (Nat.eqb_spec (itemCount st) 0) as [E|_]; auto;
    cbn [String.eqb Ascii.eqb Bool.eqb andb];
    rewrite itemCount_updateActiveResult; reflexivity.
Qed.

Lemma pressAll_arrows :
  forall keys st,
    Forall isArrow keys ->
    (1 <= itemCount st)%nat ->
    (-1 <= currentFocusIndex st <= Z.of_nat (itemCount st) - 1)%Z ->
    itemCount (pressAll keys st) = itemCount st
    /\ (-1 <= currentFocusIndex (pressAll keys st)
        <= Z.of_nat (itemCount st) - 1)%Z.
Proof.
  induction keys as [|key keys IH]; intros st Hkeys Hn Hrange.
  - split; [reflexivity | exact Hrange].
  - inversion Hkeys as [|? ? Hkey Hrest]; subst.
    pose proof (arrow_keeps_items key st Hkey) as Hcount.
    assert (Hstep : (-1 <= currentFocusIndex (handleKeyboardNavigation key st)
                     <= Z.of_nat (itemCount st) - 1)%Z).
    { destruct Hkey as [-> | ->].
      - rewrite arrowDown_focus by exact Hn. lia.
      - rewrite arrowUp_focus by exact Hn. lia. }
    change (pressAll (key :: keys) st)
      with (pressAll keys (handleKeyboardNavigation key st)).
    rewrite <- Hcount in Hstep, Hn.
    destruct (IH (handleKeyboardNavigation key st) Hrest Hn Hstep) as [Hc Hr].
    rewrite Hcount in Hc, Hr. split; assumption.
Qed.

(** C1. While the dropdown holds at least one result item, ArrowDown
    sets the focus index to [min (focus + 1) (count - 1)] and ArrowUp to
    [max (focus - 1) (-1)]; so from a focus index in [[-1, count - 1]]
    every run of ArrowDown and ArrowUp presses keeps the number of items
    and leaves the focus index in [[-1, count - 1]]. *)
Theorem arrows_clamp_focus_index :
  forall st,
    (1 <= itemCount st)%nat ->
    currentFocusIndex (handleKeyboardNavigation "ArrowDown" st)
    = Z.min (currentFocusIndex st + 1) (Z.of_nat (itemCount st) - 1)
    /\ currentFocusIndex (handleKeyboardNavigation "ArrowUp" st)
       = Z.max (currentFocusIndex st - 1) (-1)
    /\ ((-1 <= currentFocusIndex st <= Z.of_nat (itemCount st) - 1)%Z ->
        forall keys, Forall isArrow keys ->
          itemCount (pressAll keys st) = itemCount st
          /\ (-1 <= currentFocusIndex (pressAll keys st)
              <= Z.of_nat (itemCount st) - 1)%Z).
Proof.
  intros st Hn. split; [|split].
  - apply arrowDown_focus; exact Hn.
  - apply arrowUp_focus; exact Hn.
  - intros Hrange keys Hkeys. apply pressAll_arrows; assumption.
Qed.

(** C9. With no result item in the dropdown, whatever the key, the
    handler returns at once: the whole state (dropdown content, the class
    'show', the focus of the input, the focus index, the effects) is what
    it was. *)
Theorem no_items_key_is_ignored :
  forall key st,
    itemCount st = 0%nat ->
    handleKeyboardNavigation key st = st.
Proof.
  intros key st H. unfold handleKeyboardNavigation.
  fold (itemCount st). rewrite H. reflexivity.
Qed.

(** C8, as amended.  While the dropdown holds at least one result item,
    Escape empties the dropdown, removes the class 'show', takes the focus
    from the input and resets the focus index to -1. *)
Theorem escape_clears_dropdown_with_items :
  forall st,
    (1 <= itemCount st)%nat ->
    let st' := handleKeyboardNavigation "Escape" st in
    dropdownHTML st' = []
    /\ dropdownShow st' = false
    /\ inputFocused st' = false
    /\ currentFocusIndex st' = (-1)%Z.
Proof.
  intros st Hn. unfold handleKeyboardNavigation. fold (itemCount st).
  destruct (Nat.eqb_spec (itemCount st) 0) as [E|_]; [lia|].
  cbn. repeat split.
Qed.

(** C1, at a page showing ten hits (eight items) with the focus on the
    first: one ArrowDown moves it to the second. *)
Lemma arrows_clamp_focus_index_witness :
  let st := setFocusIndex 0
              (performSearch asciiUpperCase (lit "ro")
                             (loadedPage (fixedIndex tenHits) (lit "ro"))) in
  itemCount st = 8%nat
  /\ currentFocusIndex (handleKeyboardNavigation "ArrowDown" st) = 1%Z.
Proof.
  split; [reflexivity|].
  refine (eq_trans (proj1 (arrows_clamp_focus_index _ _)) _).
  - vm_compute. lia.
  - reflexivity.
Defined.

(** C8, as stated, fails: on the page that shows only the no-results
    message the dropdown is shown, yet Escape leaves it as it is. *)
Lemma escape_keeps_no_results_message :
  ~ (forall st,
        dropdownShow st = true ->
        let st' := handleKeyboardNavigation "Escape" st in
        dropdownHTML st' = []
        /\ dropdownShow st' = false
        /\ inputFocused st' = false
        /\ currentFocusIndex st' = (-1)%Z).
Proof.
  intro H.
  specialize (H (performSearch asciiUpperCase (lit "zz")
                               (loadedPage emptyIndex (lit "zz")))
                eq_refl).
  destruct H as [H _]. vm_compute in H. discriminate H.
Qed.

Lemma escape_clears_dropdown_with_items_witness :
  let st := performSearch asciiUpperCase (lit "ro")
                          (loadedPage (fixedIndex tenHits) (lit "ro")) in
  let st' := handleKeyboardNavigation "Escape" st in
  dropdownShow st = true
  /\ dropdownHTML st' = []
  /\ dropdownShow st' = false
  /\ inputFocused st' = false
  /\ currentFocusIndex st' = (-1)%Z.
Proof.
  split; [reflexivity|].
  apply (escape_clears_dropdown_with_items
           (performSearch asciiUpperCase (lit "ro")
                          (loadedPage (fixedIndex tenHits) (lit "ro")))).
  vm_compute. lia.
Defined.

End Keyboard.

(** ** Properties of searching and rendering *)

Section Searching.
Import Js Search.

Variable toUpperCase : Z -> jsstring.

Lemma length_mapIndexed :
  forall (A B : Type) (f : nat -> A -> B) l i,
    length (mapIndexed f i l) = length l.
Proof.
  intros A B f l; induction l as [|x r IH]; intro i; simpl; auto.
Qed.

Lemma nth_error_mapIndexed :
  forall (A B : Type) (f : nat -> A -> B) l i k,
    nth_error (mapIndexed f i l) k = option_map (f (i + k)%nat) (nth_error l k).
Proof.
  intros A B f l; induction l as [|x r IH]; intros i k.
  - destruct k; reflexivity.
  - destruct k as [|k]; simpl.
    + rewrite Nat.add_0_r; reflexivity.
    + rewrite IH. replace (S i + k)%nat with (i + S k)%nat by lia.
      reflexivity.
Qed.

Lemma renderResults_cons :
  forall r rs st,
    renderResults toUpperCase (r :: rs) st
    = setDropdownShow true
        (setDropdownHTML
           (mapIndexed
              (renderItem toUpperCase (trim (inputValue st))
                          (currentFocusIndex st)) 0
              (firstn 8 (r :: rs))) st).
Proof. reflexivity. Qed.

(** C3. For a non-empty result list the dropdown gets one link for each
    of the first eight results and nothing else: there are
    [min 8 (length results)] children, the child at [i] renders the result
    at [i] when [i < 8], and a list with the same first eight results
    leaves the page in the same state. *)
Theorem renderResults_first_eight :
  forall results st,
    results <> [] ->
    let st' := renderResults toUpperCase results st in
    length (dropdownHTML st') = Nat.min 8 (length results)
    /\ (forall i,
          nth_error (dropdownHTML st') i
          = if (i <? 8)%nat
            then option_map
                   (renderItem toUpperCase (trim (inputValue st))
                               (currentFocusIndex st) i)
                   (nth_error results i)
            else None)
    /\ (forall results',
          firstn 8 results' = firstn 8 results ->
          renderResults toUpperCase results' st = st').
Proof.
  intros [|r rs] st Hne; [congruence|]. intro st'. subst st'.
  rewrite renderResults_cons. cbn [dropdownHTML setDropdownShow setDropdownHTML].
  split; [|split].
  - rewrite length_mapIndexed. apply length_firstn.
  - intro i. rewrite nth_error_mapIndexed, nth_error_firstn. cbn [Nat.add].
    destruct (i <? 8)%nat; reflexivity.
  - intros [|r' rs'] Heq; [discriminate Heq|].
    rewrite renderResults_cons, Heq. reflexivity.
Qed.

(** With the search index loaded, a query of fewer than two code units
    empties the dropdown, removes the class 'show', clears the stored
    result list and resets the focus index to -1; it touches nothing
    else. *)
Lemma short_query_clears_dropdown :
  forall query st index,
    searchIndex st = Some index ->
    (length query < 2)%nat ->
    let st' := performSearch toUpperCase query st in
    dropdownHTML st' = []
    /\ dropdownShow st' = false
    /\ searchResults st' = []
    /\ currentFocusIndex st' = (-1)%Z
    /\ searchIndex st' = searchIndex st
    /\ inputValue st' = inputValue st
    /\ inputFocused st' = inputFocused st
    /\ effects st' = effects st.
Proof.
  intros query st index Hidx Hlen. unfold performSearch. rewrite Hidx.
  destruct (Nat.ltb_spec (length query) 2) as [_|Hge]; [|lia].
  cbn. repeat split. exact Hidx.
Qed.

(** C10. With the index loaded, a query of at least two code units for
    which the library returns no hit makes the dropdown show the
    no-results message: that node alone, with the class 'show'. *)
Theorem empty_search_shows_no_results :
  forall query st index,
    searchIndex st = Some index ->
    (2 <= length query)%nat ->
    search index query queryOptions = inr [] ->
    let st' := performSearch toUpperCase query st in
    dropdownHTML st' = [NoResults] /\ dropdownShow st' = true.
Proof.
  intros query st index Hidx Hlen Hhits. unfold performSearch.
  rewrite Hidx, Hhits.
  destruct (Nat.ltb_spec (length query) 2) as [Hlt|_]; [lia|].
  cbn. split; reflexivity.
Qed.

Variable MiniSearch_loadJSON : Json -> LoadOptions -> Exn + SearchIndex.

(** C6. A failed download (network error, status not ok, body that does
    not parse) is caught and logged, and the index stays unset; and with
    the index unset every query only logs a warning: dropdown, stored
    results and focus index are what they were. *)
Theorem failed_load_then_queries_noop :
  forall fetched error st,
    searchIndex st = None ->
    LoadFailure fetched error ->
    let st' := loadSearchIndex MiniSearch_loadJSON fetched st in
    st' = emit (ConsoleError MsgLoadFailed error) st
    /\ searchIndex st' = None
    /\ (forall query st0,
          searchIndex st0 = None ->
          let st1 := performSearch toUpperCase query st0 in
          st1 = emit (ConsoleWarn MsgIndexNotLoaded) st0
          /\ dropdownHTML st1 = dropdownHTML st0
          /\ dropdownShow st1 = dropdownShow st0
          /\ searchResults st1 = searchResults st0
          /\ currentFocusIndex st1 = currentFocusIndex st0).
Proof.
  intros fetched error st Hnone Hfail.
  assert (Hload : loadSearchIndex MiniSearch_loadJSON fetched st
                  = emit (ConsoleError MsgLoadFailed error) st).
  { destruct Hfail as [e | response Hok | response e Hok Hjson];
      unfold loadSearchIndex.
    - reflexivity.
    - rewrite Hok. reflexivity.
    - rewrite Hok, Hjson. reflexivity. }
  cbv zeta. rewrite Hload. split; [reflexivity|]. split; [exact Hnone|].
  intros query st0 H0. unfold performSearch. rewrite H0.
  repeat split.
Qed.

End Searching.

(** C3 on ten hits: eight children, none at index 8. *)
Lemma renderResults_first_eight_witness :
  let st := Search.loadedPage (Search.fixedIndex Search.tenHits) (Js.lit "ro") in
  let st' := Search.renderResults Search.asciiUpperCase Search.tenHits st in
  length (Search.dropdownHTML st') = 8%nat
  /\ nth_error (Search.dropdownHTML st') 8 = None.
Proof.
  assert (Hne : Search.tenHits <> []) by (vm_compute; discriminate).
  pose proof (renderResults_first_eight Search.asciiUpperCase Search.tenHits
                (Search.loadedPage (Search.fixedIndex Search.tenHits) (Js.lit "ro"))
                Hne) as [Hlen [Hnth _]].
  split; [exact Hlen | exact (Hnth 8%nat)].
Defined.

Lemma empty_search_shows_no_results_witness :
  let st' := Search.performSearch Search.asciiUpperCase (Js.lit "zz")
               (Search.loadedPage Search.emptyIndex (Js.lit "zz")) in
  Search.dropdownHTML st' = [Search.NoResults]
  /\ Search.dropdownShow st' = true.
Proof.
  apply (empty_search_shows_no_results Search.asciiUpperCase (Js.lit "zz")
           (Search.loadedPage Search.emptyIndex (Js.lit "zz"))
           Search.emptyIndex eq_refl).
  - vm_compute. lia.
  - reflexivity.
Defined.

(** C6 when the server answers 503: the error is logged, the index stays
    unset, and a query typed afterwards only logs the warning. *)
Lemma failed_load_then_queries_noop_witness :
  let fetched : Js.FetchOutcome :=
    inr (Js.mkResponse false 503 (inl Js.SyntaxError)) in
  let st' := Search.loadSearchIndex (fun _ _ => inl Js.TypeError) fetched
               Search.initialState in
  Search.searchIndex st' = None
  /\ Search.effects st'
     = [Search.ConsoleError Search.MsgLoadFailed (Js.HttpError 503)]
  /\ Search.performSearch Search.asciiUpperCase (Js.lit "ro") st'
     = Search.emit (Search.ConsoleWarn Search.MsgIndexNotLoaded) st'.
Proof.
  pose proof (failed_load_then_queries_noop Search.asciiUpperCase
                (fun _ _ => inl Js.TypeError)
                (inr (Js.mkResponse false 503 (inl Js.SyntaxError)))
                (Js.HttpError 503) Search.initialState eq_refl
                (Search.StatusFailure (Js.mkResponse false 503 (inl Js.SyntaxError))
                               eq_refl)) as [Hst [Hidx Hq]].
  split; [exact Hidx|]. split; [reflexivity|].
  exact (proj1 (Hq (Js.lit "ro") _ Hidx)).
Defined.

(** ** Properties of the random-number button *)

Section Button.
Import Js Play.

Variable Number_toString : Q -> jsstring.

Lemma success_is_not_failure :
  forall s, successPrefix ++ s <> failureMessage.
Proof. intros s H. discriminate H. Qed.

(** C7, as amended.  A click sets the text to the failure message exactly
    when the fetch throws, the body does not parse, or building the
    success text throws (as it does for the body [null]); otherwise the
    text is the success prefix followed by the number field converted to
    a string. *)
Theorem click_failure_iff_any_throw :
  forall fetched text,
    (onClick Number_toString fetched text = failureMessage <->
     fetchOrParseThrows fetched = true
     \/ exists resp data error,
          fetched = inr resp /\ json resp = inr data
          /\ successMessage Number_toString data = inl error)
    /\ (forall resp data value s,
          fetched = inr resp ->
          json resp = inr data ->
          getNumber data = inr value ->
          valueToString Number_toString value = inr s ->
          onClick Number_toString fetched text = successPrefix ++ s)
    /\ successMessage Number_toString JNull = inl TypeError.
Proof.
  intros fetched text. split; [|split].
  - destruct fetched as [e | resp]; cbn.
    + split; auto.
    + destruct (json resp) as [e | data] eqn:Hjson.
      * split; auto.
      * destruct (successMessage Number_toString data) as [e | message] eqn:Hmsg.
        -- split; [intros _|reflexivity].
           right. exists resp, data, e. auto.
        -- split.
           ++ intro H. subst message. exfalso.
              unfold successMessage in Hmsg.
              destruct (getNumber data) as [|v]; [discriminate|].
              destruct (valueToString Number_toString v) as [|s];
                [discriminate|].
              apply (success_is_not_failure s). congruence.
           ++ intros [H | (resp' & data' & e & Hf & Hj & Hm)];
                [discriminate|].
              inversion Hf; subst resp'. rewrite Hjson in Hj.
              inversion Hj; subst data'. rewrite Hmsg in Hm. discriminate.
  - intros resp data value s -> Hjson Hnum Hstr. cbn.
    rewrite Hjson. unfold successMessage. rewrite Hnum, Hstr. reflexivity.
  - reflexivity.
Qed.

End Button.

(** C7, as stated, fails: the endpoint answers with the JSON text [null];
    neither the fetch nor the parsing throws, yet the failure message is
    what the click sets. *)
Lemma click_on_null_body_fails :
  ~ (forall fetched text,
        Play.onClick Play.integerToString fetched text = Play.failureMessage
        <-> Play.fetchOrParseThrows fetched = true).
Proof.
  intro H.
  destruct (H (inr (Js.mkResponse true 200 (inr Js.JNull))) []) as [Hthrows _].
  specialize (Hthrows eq_refl). discriminate Hthrows.
Qed.

(** ** Properties of the highlighting *)

Section Highlight.
Import Js Search.

Variable toUpperCase : Z -> jsstring.

Local Abbreviation matchesHere := (Search.matchesHere toUpperCase).
Local Abbreviation scan := (Search.scan toUpperCase).
Local Abbreviation highlightSegments := (Search.highlightSegments toUpperCase).
Local Abbreviation highlightMatch := (Search.highlightMatch toUpperCase).

(** The escaped query, read back as a pattern, is the query itself: the
    regular expression is a literal. *)
Lemma parseAtoms_escapeRegExp :
  forall query, parseAtoms (escapeRegExp query) = Some query.
Proof.
  induction query as [|c query IH]; [reflexivity|].
  change (escapeRegExp (c :: query))
    with ((if isSpecial c then [92%Z; c] else [c]) ++ escapeRegExp query).
  destruct (isSpecial c) eqn:Hc.
  - cbn [app parseAtoms]. rewrite Z.eqb_refl, Hc, IH. reflexivity.
  - cbn [app parseAtoms]. destruct (Z.eqb_spec c 92) as [->|_].
    + discriminate Hc.
    + rewrite Hc, IH. reflexivity.
Qed.

Lemma parseGroup_escapeRegExp :
  forall query,
    parseGroup (40%Z :: escapeRegExp query ++ [41%Z]) = Some query.
Proof.
  intro query. unfold parseGroup.
  rewrite rev_app_distr. cbn [rev app]. rewrite rev_involutive.
  apply parseAtoms_escapeRegExp.
Qed.

Lemma highlightSegments_scan :
  forall text query, highlightSegments text query = scan query text 0.
Proof.
  intros text query. unfold Search.highlightSegments.
  rewrite parseGroup_escapeRegExp. reflexivity.
Qed.

Lemma matchesHere_firstn :
  forall pat text,
    matchesHere pat text = true ->
    matchesHere pat (firstn (length pat) text) = true
    /\ length (firstn (length pat) text) = length pat.
Proof.
  induction pat as [|a pat IH]; intros text H.
  - split; reflexivity.
  - destruct text as [|b text]; [discriminate H|].
    cbn in H |- *. apply andb_true_iff in H as [Hab Hrest].
    destruct (IH text Hrest) as [Hm Hl].
    rewrite Hab, Hm, Hl. split; reflexivity.
Qed.

(** The scan loses nothing: without the tags the segments are the text
    that was still to be copied. *)
Lemma unmark_scan :
  forall pat, pat <> [] ->
    forall text skip, unmark (scan pat text skip) = skipn skip text.
Proof.
  intros pat Hpat. induction text as [|c rest IH]; intro skip.
  - destruct skip; reflexivity.
  - destruct skip as [|k]; cbn [Search.scan].
    + destruct (matchesHere pat (c :: rest)).
      * destruct pat as [|a pat]; [congruence|].
        change (unmark (Marked (firstn (length (a :: pat)) (c :: rest))
                          :: scan (a :: pat) rest (length (a :: pat) - 1)))
          with (firstn (length (a :: pat)) (c :: rest)
                ++ unmark (scan (a :: pat) rest (length (a :: pat) - 1))).
        rewrite IH. cbn [length firstn skipn app Nat.sub].
        rewrite Nat.sub_0_r, firstn_skipn. reflexivity.
      * change (unmark (Plain c :: scan pat rest 0))
          with (c :: unmark (scan pat rest 0)).
        rewrite IH. reflexivity.
    + rewrite IH. reflexivity.
Qed.

Lemma marked_scan :
  forall pat text skip m,
    In (Marked m) (scan pat text skip) ->
    length m = length pat /\ matchesHere pat m = true.
Proof.
  intros pat. induction text as [|c rest IH]; intros skip m Hin.
  - destruct skip; contradiction.
  - destruct skip as [|k]; cbn [Search.scan] in Hin.
    + destruct (matchesHere pat (c :: rest)) eqn:Hm.
      * destruct Hin as [Heq | Hin].
        -- inversion Heq; subst m.
           destruct (matchesHere_firstn _ _ Hm); auto.
        -- eapply IH; eassumption.
      * destruct Hin as [Heq | Hin]; [discriminate Heq|].
        eapply IH; eassumption.
    + eapply IH; eassumption.
Qed.

(** Every marked segment starts at an occurrence of the literal. *)
Lemma markedStarts_sound :
  forall pat, pat <> [] ->
    forall text skip offset p,
      In p (markedStarts (scan pat text skip) (offset + skip)) ->
      exists j, p = (offset + j)%nat /\ (skip <= j)%nat
                /\ matchesHere pat (skipn j text) = true.
Proof.
  intros pat Hpat. induction text as [|c rest IH]; intros skip offset p Hin.
  - destruct skip; contradiction.
  - destruct skip as [|k]; cbn [Search.scan] in Hin.
    + destruct (matchesHere pat (c :: rest)) eqn:Hm.
      * cbn [markedStarts] in Hin. destruct Hin as [Heq | Hin].
        -- exists 0%nat. repeat split; [lia | lia | exact Hm].
        -- destruct (matchesHere_firstn _ _ Hm) as [_ Hlen].
           rewrite Hlen in Hin.
           replace (offset + 0 + length pat)%nat
             with (S offset + (length pat - 1))%nat in Hin
             by (destruct pat; [congruence | cbn [length]; lia]).
           destruct (IH _ _ _ Hin) as (j & -> & Hj & Hmj).
           exists (S j). repeat split; [lia | lia | exact Hmj].
      * cbn [markedStarts] in Hin.
        replace (S (offset + 0)) with (S offset + 0)%nat in Hin by lia.
        destruct (IH _ _ _ Hin) as (j & -> & Hj & Hmj).
        exists (S j). repeat split; [lia | lia | exact Hmj].
    + replace (offset + S k)%nat with (S offset + k)%nat in Hin by lia.
      destruct (IH _ _ _ Hin) as (j & -> & Hj & Hmj).
      exists (S j). repeat split; [lia | lia | exact Hmj].
Qed.

(** Every occurrence past the units being skipped starts inside a marked
    segment that starts no later. *)
Lemma markedStarts_cover :
  forall pat, pat <> [] ->
    forall text skip offset i,
      (skip <= i)%nat ->
      matchesHere pat (skipn i text) = true ->
      exists p, In p (markedStarts (scan pat text skip) (offset + skip))
                /\ (p <= offset + i < p + length pat)%nat.
Proof.
  intros pat Hpat. induction text as [|c rest IH]; intros skip offset i Hi Hm.
  - destruct pat; [congruence|]. destruct i; discriminate Hm.
  - destruct skip as [|k]; cbn [Search.scan].
    + destruct (matchesHere pat (c :: rest)) eqn:Hhead.
      * cbn [markedStarts].
        destruct (matchesHere_firstn _ _ Hhead) as [_ Hlen]. rewrite Hlen.
        destruct (Nat.lt_ge_cases i (length pat)) as [Hlt | Hge].
        -- exists (offset + 0)%nat. split; [left; reflexivity | lia].
        -- destruct i as [|i']; [destruct pat; [congruence | cbn in Hge; lia]|].
           cbn [skipn] in Hm.
           destruct (IH (length pat - 1)%nat (S offset) i') as (p & Hp & Hr);
             [lia | exact Hm |].
           exists p. split; [|lia]. right.
           replace (offset + 0 + length pat)%nat
             with (S offset + (length pat - 1))%nat by lia.
           exact Hp.
      * cbn [markedStarts]. destruct i as [|i'].
        -- cbn [skipn] in Hm. congruence.
        -- cbn [skipn] in Hm.
           destruct (IH 0%nat (S offset) i') as (p & Hp & Hr);
             [lia | exact Hm |].
           exists p. split; [|lia].
           replace (S (offset + 0)) with (S offset + 0)%nat by lia. exact Hp.
    + destruct i as [|i']; [lia|]. cbn [skipn] in Hm.
      destruct (IH k (S offset) i') as (p & Hp & Hr); [lia | exact Hm |].
      exists p. split; [|lia].
      replace (offset + S k)%nat with (S offset + k)%nat by lia. exact Hp.
Qed.

(** C4, as amended.  For a non-empty text and a non-empty query,
    highlightMatch returns the text with a left-to-right sequence of
    occurrences of the query, compared without case, each wrapped in
    [<mark>] and [</mark>]: every wrapped piece is an occurrence, every
    occurrence starts inside a wrapped piece that starts no later (it is
    wrapped itself, or it overlaps one wrapped before it), and the output
    without the inserted tags is the text. *)
Theorem highlightMatch_wraps_scanned_occurrences :
  forall text query,
    text <> [] -> query <> [] ->
    let segs := highlightSegments text query in
    highlightMatch text query = toHtml segs
    /\ unmark segs = text
    /\ (forall m, In (Marked m) segs ->
                  length m = length query /\ matchesHere query m = true)
    /\ (forall p, In p (markedStarts segs 0) ->
                  matchesHere query (skipn p text) = true)
    /\ (forall i, matchesHere query (skipn i text) = true ->
                  exists p, In p (markedStarts segs 0)
                            /\ (p <= i < p + length query)%nat).
Proof.
  intros text query Htext Hquery segs. subst segs.
  rewrite highlightSegments_scan.
  split; [|split; [|split; [|split]]].
  - unfold Search.highlightMatch.
    destruct query; [congruence|]. destruct text; [congruence|].
    rewrite highlightSegments_scan. reflexivity.
  - apply (unmark_scan query Hquery text 0).
  - intros m Hin. exact (marked_scan _ _ _ _ Hin).
  - intros p Hin.
    destruct (markedStarts_sound query Hquery text 0 0 p Hin)
      as (j & -> & _ & Hm).
    exact Hm.
  - intros i Hm.
    destruct (markedStarts_cover query Hquery text 0 0 i (Nat.le_0_l i) Hm)
      as (p & Hp & Hr).
    exists p. split; [exact Hp | lia].
Qed.

End Highlight.

(** C4, as stated, fails: in ["aaa"] the query ["aa"] occurs at index 1 too,
    but the output is [<mark>aa</mark>a]: that occurrence is not wrapped. *)
Lemma overlapping_occurrence_not_wrapped :
  ~ (forall text query,
        text <> [] -> query <> [] ->
        let segs := Search.highlightSegments Search.asciiUpperCase text query in
        Search.highlightMatch Search.asciiUpperCase text query = Search.toHtml segs
        /\ Search.unmark segs = text
        /\ (forall i,
              Search.matchesHere Search.asciiUpperCase query (skipn i text) = true ->
              In i (Search.markedStarts segs 0))).
Proof.
  intro H.
  destruct (H (Js.lit "aaa") (Js.lit "aa")) as [Hout [_ Hall]];
    [discriminate | discriminate |].
  specialize (Hall 1%nat eq_refl). vm_compute in Hall.
  destruct Hall as [Hall | []]. discriminate Hall.
Qed.

(** C4 on ["Rocq rocks"] and ["ROC"]: both occurrences are wrapped, in the
    case the text has them. *)
Lemma highlightMatch_wraps_scanned_occurrences_witness :
  Search.highlightMatch Search.asciiUpperCase (Js.lit "Rocq rocks") (Js.lit "ROC")
  = Js.lit "<mark>Roc</mark>q <mark>roc</mark>ks"
  /\ Search.unmark
       (Search.highlightSegments Search.asciiUpperCase
                                 (Js.lit "Rocq rocks") (Js.lit "ROC"))
     = Js.lit "Rocq rocks".
Proof.
  assert (Htext : Js.lit "Rocq rocks" <> []) by discriminate.
  assert (Hquery : Js.lit "ROC" <> []) by discriminate.
  destruct (highlightMatch_wraps_scanned_occurrences Search.asciiUpperCase
              (Js.lit "Rocq rocks") (Js.lit "ROC") Htext Hquery)
    as [Hout [Hback _]].
  split; [|exact Hback].
  rewrite Hout. reflexivity.
Defined.

(** ** Properties of the ranking *)

Section Ranking.
Import Js Search.

Lemma Qgtb_true : forall x y, Qgtb x y = true <-> (y < x)%Q.
Proof.
  intros x y. unfold Qgtb. rewrite negb_true_iff.
  destruct (Qle_bool x y) eqn:H.
  - apply Qle_bool_iff in H. split; [discriminate | intro; lra].
  - split; [intros _ | reflexivity].
    destruct (Qlt_le_dec y x) as [Hlt | Hle]; [exact Hlt|].
    apply Qle_bool_iff in Hle. congruence.
Qed.

Lemma Qgtb_false : forall x y, Qgtb x y = false <-> (x <= y)%Q.
Proof.
  intros x y. unfold Qgtb. rewrite negb_false_iff. apply Qle_bool_iff.
Qed.

(** What the comparator says of [a] against [b] is the opposite of what
    it says of [b] against [a]. *)
Lemma byRelevance_opp :
  forall a b, (byRelevance a b == - byRelevance b a)%Q.
Proof.
  intros a b. unfold byRelevance. cbv zeta.
  rewrite (Qabs_Qminus (score b) (score a)).
  destruct (Qgtb (Qabs (score a - score b)) (1 # 10)); lra.
Qed.

(** The comparator does not put [a] after [b] exactly when the pair is
    in order. *)
Lemma byRelevance_inOrder :
  forall a b, (byRelevance a b <= 0)%Q <-> inOrder a b.
Proof.
  intros a b. unfold byRelevance, inOrder. cbv zeta.
  rewrite (Qabs_Qminus (score b) (score a)).
  destruct (Qgtb (Qabs (score a - score b)) (1 # 10)) eqn:Hgap.
  - apply Qgtb_true in Hgap. split.
    + intro Hle. left.
      revert Hgap. apply Qabs_case; intros; lra.
    + intros [Hlt | [Habs _]]; lra.
  - apply Qgtb_false in Hgap. split.
    + intro Hle. right. split; [exact Hgap | lra].
    + intros [Hlt | [_ Hw]]; [|lra].
      exfalso. apply Qabs_Qle_condition in Hgap. lra.
Qed.

Section Sorting.

Variable A : Type.
Variable compare : A -> A -> Q.

(** All the sort needs of the comparator: when it puts [a] after [b],
    it does not put [b] after [a].  No transitivity is asked. *)
Hypothesis compare_opp :
  forall a b, (0 < compare a b)%Q -> (compare b a <= 0)%Q.

(** The order of the part already sorted, which is kept last first. *)
Let later (p q : A) : Prop := (compare q p <= 0)%Q.

Lemma insertSorted_HdRel :
  forall x racc p,
    HdRel later p racc -> later p x ->
    HdRel later p (insertSorted compare x racc).
Proof.
  intros x [|q rest] p Hhd Hpx; cbn [insertSorted].
  - constructor; exact Hpx.
  - destruct (Qgtb (compare q x) 0); constructor;
      [inversion Hhd; assumption | exact Hpx].
Qed.

Lemma insertSorted_Sorted :
  forall x racc,
    Sorted later racc -> Sorted later (insertSorted compare x racc).
Proof.
  intros x. induction racc as [|p rest IH]; intro Hs; cbn [insertSorted].
  - repeat constructor.
  - inversion Hs as [|? ? Hrest Hhd]; subst.
    destruct (Qgtb (compare p x) 0) eqn:Hcmp.
    + apply Qgtb_true in Hcmp. constructor; [exact (IH Hrest)|].
      apply insertSorted_HdRel; [exact Hhd|].
      exact (compare_opp p x Hcmp).
    + apply Qgtb_false in Hcmp.
      constructor; [exact Hs | constructor; exact Hcmp].
Qed.

Lemma fold_insertSorted_Sorted :
  forall l racc,
    Sorted later racc ->
    Sorted later (fold_left (fun acc x => insertSorted compare x acc) l racc).
Proof.
  induction l as [|x l IH]; intros racc Hs; cbn [fold_left]; auto.
  apply IH, insertSorted_Sorted, Hs.
Qed.

Lemma Sorted_adjacent :
  forall (R : A -> A -> Prop) l1 p q l2,
    Sorted R (l1 ++ p :: q :: l2) -> R p q.
Proof.
  intros R. induction l1 as [|x l1 IH]; intros p q l2 Hs.
  - inversion Hs as [|? ? _ Hhd]; subst. inversion Hhd; assumption.
  - inversion Hs; subst. eapply IH; eassumption.
Qed.

(** Two neighbours of the sorted array: the comparator does not put
    the first after the second. *)
Lemma Array_sort_adjacent :
  forall l before a b after,
    Array_sort compare l = before ++ a :: b :: after ->
    (compare a b <= 0)%Q.
Proof.
  intros l before a b after Heq. unfold Array_sort in Heq.
  apply (f_equal (@rev A)) in Heq. rewrite rev_involutive in Heq.
  rewrite rev_app_distr in Heq. cbn [rev] in Heq.
  rewrite <- !app_assoc in Heq. cbn [app] in Heq.
  pose proof (fold_insertSorted_Sorted l [] (Sorted_nil later)) as Hs.
  rewrite Heq in Hs.
  exact (Sorted_adjacent later _ _ _ _ Hs).
Qed.

Lemma insertSorted_Permutation :
  forall x racc, Permutation (x :: racc) (insertSorted compare x racc).
Proof.
  intros x. induction racc as [|p rest IH]; cbn [insertSorted].
  - apply Permutation_refl.
  - destruct (Qgtb (compare p x) 0); [|apply Permutation_refl].
    eapply perm_trans; [apply perm_swap|]. apply perm_skip, IH.
Qed.

Lemma fold_insertSorted_Permutation :
  forall l racc,
    Permutation (l ++ racc)
                (fold_left (fun acc x => insertSorted compare x acc) l racc).
Proof.
  induction l as [|x l IH]; intro racc; cbn [fold_left app].
  - apply Permutation_refl.
  - eapply perm_trans; [|apply IH].
    eapply perm_trans; [apply Permutation_middle|].
    apply Permutation_app_head, insertSorted_Permutation.
Qed.

Lemma Array_sort_Permutation :
  forall l, Permutation l (Array_sort compare l).
Proof.
  intro l. unfold Array_sort.
  eapply perm_trans; [|apply Permutation_rev].
  rewrite <- (app_nil_r l) at 1. apply fold_insertSorted_Permutation.
Qed.

End Sorting.

Lemma byRelevance_compare_opp :
  forall a b, (0 < byRelevance a b)%Q -> (byRelevance b a <= 0)%Q.
Proof.
  intros a b H. pose proof (byRelevance_opp a b) as Hopp. lra.
Qed.

Lemma searchResults_renderResults :
  forall up results st,
    searchResults (renderResults up results st) = searchResults st.
Proof. intros up [|r rs] st; reflexivity. Qed.

End Ranking.


(** C9 after a search without hits: Escape leaves the page as it is. *)
Lemma no_items_key_is_ignored_witness :
  let st := Search.performSearch Search.asciiUpperCase (Js.lit "zz")
              (Search.loadedPage Search.emptyIndex (Js.lit "zz")) in
  Search.dropdownHTML st = [Search.NoResults]
  /\ Search.handleKeyboardNavigation "Escape" st = st.
Proof.
  split; [reflexivity|].
  apply no_items_key_is_ignored. reflexivity.
Defined.

(** C7 when the endpoint answers [{"number": 42}]. *)
Lemma click_failure_iff_any_throw_witness :
  let resp := Js.mkResponse true 200
                (inr (Js.JObject [(Js.lit "number", Js.JNumber 42)])) in
  Play.onClick Play.integerToString (inr resp) []
  = Play.successPrefix ++ Js.lit "42".
Proof.
  intro resp.
  destruct (click_failure_iff_any_throw Play.integerToString (inr resp) [])
    as [_ [Hok _]].
  apply (Hok resp (Js.JObject [(Js.lit "number", Js.JNumber 42)])
             (Play.OfJson (Js.JNumber 42)) (Js.lit "42"));
    reflexivity.
Defined.

(** ** More on the highlighting *)

Section HighlightMore.
Import Js Search.

Variable toUpperCase : Z -> jsstring.

Local Abbreviation Canonicalize := (Search.Canonicalize toUpperCase).
Local Abbreviation matchesHere := (Search.matchesHere toUpperCase).
Local Abbreviation scan := (Search.scan toUpperCase).
Local Abbreviation highlightSegments := (Search.highlightSegments toUpperCase).
Local Abbreviation highlightMatch := (Search.highlightMatch toUpperCase).

(** X1.  The escaping is a round trip: the pattern built from the escaped
    query reads back as the query, unit for unit, whatever characters the
    query holds; so two queries with the same escaped form are the same. *)
Theorem escapeRegExp_pattern_is_literal :
  forall query,
    parseGroup (40%Z :: escapeRegExp query ++ [41%Z]) = Some query
    /\ (forall query', escapeRegExp query' = escapeRegExp query ->
                       query' = query).
Proof.
  intro query. split.
  - apply parseGroup_escapeRegExp.
  - intros query' Heq.
    pose proof (parseAtoms_escapeRegExp query') as H'.
    rewrite Heq, parseAtoms_escapeRegExp in H'. congruence.
Qed.

Lemma toHtml_map_Plain : forall text, toHtml (map Plain text) = text.
Proof.
  induction text as [|c text IH]; [reflexivity|].
  cbn. unfold toHtml in IH. rewrite IH. reflexivity.
Qed.

Lemma scan_no_occurrence :
  forall pat text,
    (forall i, matchesHere pat (skipn i text) = false) ->
    scan pat text 0 = map Plain text.
Proof.
  intros pat. induction text as [|c rest IH]; intro Hno; [reflexivity|].
  cbn [Search.scan map]. rewrite (Hno 0%nat : matchesHere pat (c :: rest) = false).
  rewrite IH; [reflexivity|]. intro i. exact (Hno (S i)).
Qed.

(** X2.  When the query occurs nowhere in the text, highlightMatch returns
    the text as it is. *)
Theorem highlightMatch_without_occurrence :
  forall text query,
    (forall i, matchesHere query (skipn i text) = false) ->
    highlightMatch text query = text.
Proof.
  intros text query Hno. unfold Search.highlightMatch.
  destruct query as [|a query]; [reflexivity|].
  destruct text as [|c text]; [reflexivity|].
  rewrite highlightSegments_scan, scan_no_occurrence by exact Hno.
  apply toHtml_map_Plain.
Qed.

Lemma length_markedStarts :
  forall segs offset offset',
    length (markedStarts segs offset) = length (markedStarts segs offset').
Proof.
  induction segs as [|[c|m] segs IH]; intros offset offset'; cbn [markedStarts].
  - reflexivity.
  - apply IH.
  - cbn [length]. f_equal. apply IH.
Qed.

Lemma length_toHtml :
  forall segs,
    length (toHtml segs)
    = (length (unmark segs) + 13 * length (markedStarts segs 0))%nat.
Proof.
  induction segs as [|[c|m] segs IH].
  - reflexivity.
  - change (toHtml (Plain c :: segs)) with (c :: toHtml segs).
    change (unmark (Plain c :: segs)) with (c :: unmark segs).
    cbn [markedStarts length].
    rewrite IH, (length_markedStarts segs 1 0). lia.
  - change (toHtml (Marked m :: segs))
      with ((markOpen ++ m ++ markClose) ++ toHtml segs).
    change (unmark (Marked m :: segs)) with (m ++ unmark segs).
    cbn [markedStarts length].
    rewrite !length_app, IH, (length_markedStarts segs (0 + length m) 0).
    change (length markOpen) with 6%nat. change (length markClose) with 7%nat.
    lia.
Qed.

Lemma marked_fit :
  forall n segs,
    (forall m, In (Marked m) segs -> length m = n) ->
    (length (markedStarts segs 0) * n <= length (unmark segs))%nat.
Proof.
  intros n. induction segs as [|[c|m] segs IH]; intro Hall.
  - cbn. lia.
  - change (unmark (Plain c :: segs)) with (c :: unmark segs).
    cbn [markedStarts length]. rewrite (length_markedStarts segs 1 0).
    assert (H := IH (fun m Hin => Hall m (or_intror Hin))). lia.
  - change (unmark (Marked m :: segs)) with (m ++ unmark segs).
    cbn [markedStarts length].
    rewrite length_app, (length_markedStarts segs (0 + length m) 0).
    rewrite (Hall m (or_introl eq_refl)).
    assert (H := IH (fun m' Hin => Hall m' (or_intror Hin))). lia.
Qed.

(** X3.  For a non-empty query the output is longer than the text by the
    thirteen units of [<mark>] and [</mark>] for each wrapped occurrence,
    and the wrapped occurrences, being disjoint, number at most the length
    of the text over that of the query. *)
Theorem highlightMatch_length :
  forall text query,
    query <> [] ->
    let marks := length (markedStarts (highlightSegments text query) 0) in
    length (highlightMatch text query) = (length text + 13 * marks)%nat
    /\ (marks * length query <= length text)%nat.
Proof.
  intros text query Hquery marks. subst marks.
  rewrite highlightSegments_scan.
  pose proof (unmark_scan toUpperCase query Hquery text 0) as Hback.
  cbn [skipn] in Hback.
  split.
  - unfold Search.highlightMatch.
    destruct query as [|a query]; [congruence|].
    destruct text as [|c text]; [reflexivity|].
    rewrite highlightSegments_scan, length_toHtml, Hback. reflexivity.
  - rewrite <- Hback at 2. apply marked_fit.
    intros m Hin. exact (proj1 (marked_scan toUpperCase _ _ _ _ Hin)).
Qed.

Lemma matchesHere_same_case :
  forall q1 q2,
    Forall2 (fun a b => Canonicalize a = Canonicalize b) q1 q2 ->
    forall text, matchesHere q1 text = matchesHere q2 text.
Proof.
  induction 1 as [|a b q1 q2 Hab _ IH]; intro text; [reflexivity|].
  destruct text as [|c text]; [reflexivity|].
  cbn [Search.matchesHere]. fold Canonicalize. rewrite Hab, IH. reflexivity.
Qed.

Lemma scan_same_case :
  forall q1 q2,
    Forall2 (fun a b => Canonicalize a = Canonicalize b) q1 q2 ->
    forall text skip, scan q1 text skip = scan q2 text skip.
Proof.
  intros q1 q2 H. pose proof (Forall2_length H) as Hlen.
  induction text as [|c rest IH]; intro skip; [reflexivity|].
  cbn [Search.scan]. destruct skip as [|k]; [|apply IH].
  rewrite (matchesHere_same_case q1 q2 H), Hlen, !IH. reflexivity.
Qed.

(** X4.  The case of the query does not matter: two queries whose units
    agree after case folding give the same output on every text. *)
Theorem highlightMatch_query_case_irrelevant :
  forall q1 q2 text,
    Forall2 (fun a b => Canonicalize a = Canonicalize b) q1 q2 ->
    highlightMatch text q1 = highlightMatch text q2.
Proof.
  intros q1 q2 text H. unfold Search.highlightMatch.
  destruct H as [|a b q1 q2 Hab Hrest]; [reflexivity|].
  destruct text as [|c text]; [reflexivity|].
  rewrite !highlightSegments_scan.
  rewrite (scan_same_case (a :: q1) (b :: q2) (Forall2_cons _ _ Hab Hrest)).
  reflexivity.
Qed.

End HighlightMore.

(** X2 on ["Rocq"] and ["xyz"]. *)
Lemma highlightMatch_without_occurrence_witness :
  Search.highlightMatch Search.asciiUpperCase (Js.lit "Rocq") (Js.lit "xyz")
  = Js.lit "Rocq".
Proof.
  apply highlightMatch_without_occurrence.
  intro i. do 4 (destruct i as [|i]; [reflexivity|]).
  destruct i; reflexivity.
Defined.

(** X3 on ["Rocq rocks"] and ["roc"]: two marks, 26 units more. *)
Lemma highlightMatch_length_witness :
  length (Search.highlightMatch Search.asciiUpperCase
                                (Js.lit "Rocq rocks") (Js.lit "roc"))
  = (10 + 13 * 2)%nat.
Proof.
  assert (Hquery : Js.lit "roc" <> []) by discriminate.
  exact (proj1 (highlightMatch_length Search.asciiUpperCase
                  (Js.lit "Rocq rocks") (Js.lit "roc") Hquery)).
Defined.

(** X4 on the queries ["ROC"] and ["roc"]. *)
Lemma highlightMatch_query_case_irrelevant_witness :
  Search.highlightMatch Search.asciiUpperCase (Js.lit "Rocq rocks") (Js.lit "ROC")
  = Search.highlightMatch Search.asciiUpperCase (Js.lit "Rocq rocks") (Js.lit "roc").
Proof.
  apply highlightMatch_query_case_irrelevant.
  repeat constructor.
Defined.

(** ** More on searching and ranking *)

Section RankingMore.
Import Js Search.

Variable toUpperCase : Z -> jsstring.

Lemma performSearch_stores_sorted :
  forall query st index hits,
    searchIndex st = Some index ->
    (2 <= length query)%nat ->
    search index query queryOptions = inr hits ->
    performSearch toUpperCase query st
    = renderResults toUpperCase (Array_sort byRelevance hits)
        (setSearchResults (Array_sort byRelevance hits) st).
Proof.
  intros query st index hits Hidx Hlen Hhits. unfold performSearch.
  rewrite Hidx, Hhits.
  destruct (Nat.ltb_spec (length query) 2) as [Hlt|_]; [lia|]. reflexivity.
Qed.

Lemma Sorted_of_adjacent :
  forall (A : Type) (R : A -> A -> Prop) l,
    (forall before a b after, l = before ++ a :: b :: after -> R a b) ->
    Sorted R l.
Proof.
  intros A R. induction l as [|x l IH]; intro Hadj; [constructor|].
  constructor.
  - apply IH. intros before a b after ->.
    exact (Hadj (x :: before) a b after eq_refl).
  - destruct l as [|y l]; constructor.
    exact (Hadj [] x y l eq_refl).
Qed.

(** The sorted hits, each neighbour pair in order and both among the hits. *)
Lemma Array_sort_byRelevance_Sorted :
  forall hits,
    Sorted (fun a b => inOrder a b /\ In a hits /\ In b hits)
           (Array_sort byRelevance hits).
Proof.
  intro hits. apply Sorted_of_adjacent. intros before a b after Heq.
  pose proof (Array_sort_Permutation _ byRelevance hits) as Hperm.
  split; [|split].
  - apply byRelevance_inOrder.
    exact (Array_sort_adjacent _ byRelevance byRelevance_compare_opp
                               hits before a b after Heq).
  - apply (Permutation_in a (Permutation_sym Hperm)).
    rewrite Heq. apply in_or_app. right. left. reflexivity.
  - apply (Permutation_in b (Permutation_sym Hperm)).
    rewrite Heq. apply in_or_app. right. right. left. reflexivity.
Qed.

Lemma Sorted_weaken :
  forall (A : Type) (R R' : A -> A -> Prop) l,
    (forall a b, R a b -> R' a b) -> Sorted R l -> Sorted R' l.
Proof.
  intros A R R' l Himp. induction 1 as [|a l Hs IH Hhd]; constructor; auto.
  destruct Hhd; constructor; auto.
Qed.

Lemma byScoreThenWeight_trans :
  forall a b c,
    byScoreThenWeight a b -> byScoreThenWeight b c -> byScoreThenWeight a c.
Proof.
  unfold byScoreThenWeight.
  intros a b c [Hab | [Hab Wab]] [Hbc | [Hbc Wbc]].
  - left. lra.
  - left. lra.
  - left. lra.
  - right. split; lra.
Qed.

(** X5.  When no two hits have different scores within 1/8 of each other,
    the stored result list is ordered as a whole, not only between
    neighbours: by score, the higher first, and at equal scores by weight,
    the higher first. *)
Theorem stored_results_by_score_then_weight :
  forall query st index hits,
    searchIndex st = Some index ->
    (2 <= length query)%nat ->
    search index query queryOptions = inr hits ->
    scoresEqualOrApart hits ->
    StronglySorted byScoreThenWeight
                   (searchResults (performSearch toUpperCase query st)).
Proof.
  intros query st index hits Hidx Hlen Hhits Hgap.
  rewrite (performSearch_stores_sorted query st index hits Hidx Hlen Hhits).
  rewrite searchResults_renderResults. cbn [searchResults setSearchResults].
  apply Sorted_StronglySorted.
  - intros a b c. apply byScoreThenWeight_trans.
  - apply Sorted_weaken
      with (R := fun a b => inOrder a b /\ In a hits /\ In b hits);
      [|apply Array_sort_byRelevance_Sorted].
    intros a b H. unfold byScoreThenWeight.
    destruct H as [[Hfar | [Hnear Hw]] [Ha Hb]].
    + left. lra.
    + destruct (Hgap a b Ha Hb) as [Heq | Hfar].
      * right. split; assumption.
      * lra.
Qed.

(** X6.  When all the hits have scores within 0.1 of each other, the
    scores play no part: the stored result list is in order of weight, the
    higher first. *)
Theorem stored_results_by_weight_when_scores_close :
  forall query st index hits,
    searchIndex st = Some index ->
    (2 <= length query)%nat ->
    search index query queryOptions = inr hits ->
    scoresClose hits ->
    StronglySorted (fun a b => weight b <= weight a)%Q
                   (searchResults (performSearch toUpperCase query st)).
Proof.
  intros query st index hits Hidx Hlen Hhits Hclose.
  rewrite (performSearch_stores_sorted query st index hits Hidx Hlen Hhits).
  rewrite searchResults_renderResults. cbn [searchResults setSearchResults].
  apply Sorted_StronglySorted.
  - intros a b c Hab Hbc. lra.
  - apply Sorted_weaken
      with (R := fun a b => inOrder a b /\ In a hits /\ In b hits);
      [|apply Array_sort_byRelevance_Sorted].
    intros a b H.
    destruct H as [[Hfar | [Hnear Hw]] [Ha Hb]]; [|exact Hw].
    pose proof (Hclose a b Ha Hb) as Hab.
    apply Qabs_Qle_condition in Hab. lra.
Qed.

(** X7.  When the library's search throws, performSearch logs the error
    and does nothing else: the dropdown, the stored results and the focus
    index stay as the earlier search left them. *)
Theorem search_error_is_logged_only :
  forall query st index error,
    searchIndex st = Some index ->
    (2 <= length query)%nat ->
    search index query queryOptions = inl error ->
    let st' := performSearch toUpperCase query st in
    st' = emit (ConsoleError MsgSearchError error) st
    /\ dropdownHTML st' = dropdownHTML st
    /\ dropdownShow st' = dropdownShow st
    /\ searchResults st' = searchResults st
    /\ currentFocusIndex st' = currentFocusIndex st.
Proof.
  intros query st index error Hidx Hlen Hthrow. unfold performSearch.
  rewrite Hidx, Hthrow.
  destruct (Nat.ltb_spec (length query) 2) as [Hlt|_]; [lia|].
  repeat split.
Qed.

Lemma resultItems_mapIndexed_renderItem :
  forall query focus results i,
    length (resultItems (mapIndexed (renderItem toUpperCase query focus) i results))
    = length results.
Proof.
  intros query focus. induction results as [|r rs IH]; intro i; cbn; auto.
Qed.

(** X8.  A search that returns hits, all of them plain, stores all of
    them, shows the dropdown and puts [min 8 (number of hits)] result items
    in it; it does not move the focus index. *)
Theorem search_with_hits_fills_dropdown :
  forall query st index hits,
    searchIndex st = Some index ->
    (2 <= length query)%nat ->
    search index query queryOptions = inr hits ->
    hits <> [] ->
    forallb isPlainHit hits = true ->
    let st' := performSearch toUpperCase query st in
    length (searchResults st') = length hits
    /\ itemCount st' = Nat.min 8 (length hits)
    /\ dropdownShow st' = true
    /\ currentFocusIndex st' = currentFocusIndex st.
Proof.
  intros query st index hits Hidx Hlen Hhits Hne _ st'. subst st'.
  rewrite (performSearch_stores_sorted query st index hits Hidx Hlen Hhits).
  pose proof (Array_sort_Permutation _ byRelevance hits) as Hperm.
  pose proof (Permutation_length Hperm) as Hl.
  destruct (Array_sort byRelevance hits) as [|r rs] eqn:Hsorted.
  - destruct hits; [congruence | discriminate Hl].
  - rewrite renderResults_cons. unfold itemCount.
    cbn [searchResults dropdownHTML dropdownShow currentFocusIndex
         setDropdownShow setDropdownHTML setSearchResults].
    rewrite resultItems_mapIndexed_renderItem, length_firstn, <- Hl.
    repeat split.
Qed.

End RankingMore.

(** ** More on the keyboard and the mouse *)

Section KeyboardMore.
Import Js Search.

Lemma resultItems_forEachItem_eq :
  forall f nodes i,
    resultItems (forEachItem f i nodes) = mapIndexed f i (resultItems nodes).
Proof.
  intros f. induction nodes as [|[|it] r IH]; intro i; cbn; auto.
  rewrite IH. reflexivity.
Qed.

Lemma filter_active_mapIndexed :
  forall (p : nat -> bool) items s,
    length (filter active (mapIndexed (fun i it => setActive (p i) it) s items))
    = length (filter p (seq s (length items))).
Proof.
  intros p. induction items as [|it items IH]; intro s; [reflexivity|].
  cbn [mapIndexed length seq filter]. cbn [active setActive].
  destruct (p s); cbn [length]; rewrite IH; reflexivity.
Qed.

(** A predicate true at [k] alone picks [k] from a range that holds it, and
    nothing from another. *)
Lemma filter_single_seq :
  forall (p : nat -> bool) k,
    (forall i, p i = true <-> i = k) ->
    forall n s,
      filter p (seq s n)
      = if ((s <=? k) && (k <? s + n))%nat then [k] else [].
Proof.
  intros p k Hp. induction n as [|n IH]; intro s.
  - cbn [seq filter].
    destruct (Nat.leb_spec s k), (Nat.ltb_spec k (s + 0)); cbn; auto; lia.
  - cbn [seq filter]. rewrite IH.
    destruct (p s) eqn:Hs.
    + apply Hp in Hs. subst s.
      destruct (Nat.leb_spec (S k) k); [lia|].
      destruct (Nat.leb_spec k k); [|lia].
      destruct (Nat.ltb_spec k (k + S n)); [|lia]. reflexivity.
    + assert (s <> k) by (intro; subst; rewrite (proj2 (Hp k) eq_refl) in Hs;
                          discriminate).
      destruct (Nat.leb_spec (S s) k), (Nat.leb_spec s k),
               (Nat.ltb_spec k (S s + n)), (Nat.ltb_spec k (s + S n));
        cbn; auto; lia.
Qed.

Lemma filter_none_seq :
  forall (p : nat -> bool),
    (forall i, p i = false) -> forall n s, filter p (seq s n) = [].
Proof.
  intros p Hp. induction n as [|n IH]; intro s; [reflexivity|].
  cbn [seq filter]. rewrite Hp. apply IH.
Qed.

Lemma focus_predicate :
  forall focus, (0 <= focus)%Z ->
    forall i, (Z.of_nat i =? focus)%Z = true <-> i = Z.to_nat focus.
Proof.
  intros focus Hpos i. rewrite Z.eqb_eq. lia.
Qed.

Lemma scrolled_as_filter :
  forall focus l,
    flat_map (fun i => if (Z.of_nat i =? focus)%Z then [ScrollIntoView i] else [])
             l
    = map ScrollIntoView (filter (fun i => (Z.of_nat i =? focus)%Z) l).
Proof.
  intros focus. induction l as [|i l IH]; [reflexivity|].
  cbn [flat_map filter]. destruct (Z.of_nat i =? focus)%Z; cbn; rewrite IH;
    reflexivity.
Qed.

(** What updateActiveResult leaves: the focus index decides the class of
    every item, and the item it names, if there is one, is scrolled to. *)
Lemma updateActiveResult_items :
  forall st i it,
    nth_error (resultItems (dropdownHTML (updateActiveResult st))) i = Some it ->
    active it = (Z.of_nat i =? currentFocusIndex st)%Z.
Proof.
  intros st i it. unfold updateActiveResult. cbn [dropdownHTML].
  rewrite resultItems_forEachItem_eq, nth_error_mapIndexed. cbn [Nat.add].
  destruct (nth_error (resultItems (dropdownHTML st)) i); [|discriminate].
  intro H. inversion H. reflexivity.
Qed.

Lemma updateActiveResult_in_range :
  forall st,
    (0 <= currentFocusIndex st < Z.of_nat (itemCount st))%Z ->
    activeCount (dropdownHTML (updateActiveResult st)) = 1%nat
    /\ effects (updateActiveResult st)
       = effects st ++ [ScrollIntoView (Z.to_nat (currentFocusIndex st))].
Proof.
  intros st [Hlo Hhi]. unfold updateActiveResult, activeCount, itemCount in *.
  cbn [dropdownHTML effects].
  rewrite resultItems_forEachItem_eq, scrolled_as_filter.
  rewrite (filter_active_mapIndexed
             (fun i => (Z.of_nat i =? currentFocusIndex st)%Z)).
  rewrite (filter_single_seq _ _ (focus_predicate _ Hlo)).
  destruct (Nat.leb_spec 0 (Z.to_nat (currentFocusIndex st))); [|lia].
  destruct (Nat.ltb_spec (Z.to_nat (currentFocusIndex st))
                         (0 + length (resultItems (dropdownHTML st)))); [|lia].
  split; reflexivity.
Qed.

Lemma updateActiveResult_unfocused :
  forall st,
    (currentFocusIndex st < 0)%Z ->
    activeCount (dropdownHTML (updateActiveResult st)) = 0%nat
    /\ effects (updateActiveResult st) = effects st.
Proof.
  intros st Hneg. unfold updateActiveResult, activeCount.
  cbn [dropdownHTML effects].
  rewrite resultItems_forEachItem_eq, scrolled_as_filter.
  rewrite (filter_active_mapIndexed
             (fun i => (Z.of_nat i =? currentFocusIndex st)%Z)).
  rewrite filter_none_seq by (intro i; apply Z.eqb_neq; lia).
  split; [reflexivity | apply app_nil_r].
Qed.

Lemma arrowDown_unfold :
  forall st, (1 <= itemCount st)%nat ->
    handleKeyboardNavigation "ArrowDown" st
    = updateActiveResult
        (setFocusIndex
           (Z.min (currentFocusIndex st + 1) (Z.of_nat (itemCount st) - 1))
           (emit PreventDefault st)).
Proof.
  intros st Hn. unfold handleKeyboardNavigation. fold (itemCount st).
  destruct (Nat.eqb_spec (itemCount st) 0) as [E|_]; [lia|]. reflexivity.
Qed.

Lemma arrowUp_unfold :
  forall st, (1 <= itemCount st)%nat ->
    handleKeyboardNavigation "ArrowUp" st
    = updateActiveResult
        (setFocusIndex (Z.max (currentFocusIndex st - 1) (-1))
                       (emit PreventDefault st)).
Proof.
  intros st Hn. unfold handleKeyboardNavigation. fold (itemCount st).
  destruct (Nat.eqb_spec (itemCount st) 0) as [E|_]; [lia|]. reflexivity.
Qed.

(** X9.  After ArrowDown or ArrowUp on a dropdown with items, an item
    carries the class 'active' exactly when its index is the new focus
    index. *)
Theorem arrow_marks_the_focused_item :
  forall key st,
    isArrow key ->
    (1 <= itemCount st)%nat ->
    let st' := handleKeyboardNavigation key st in
    forall i it,
      nth_error (resultItems (dropdownHTML st')) i = Some it ->
      active it = (Z.of_nat i =? currentFocusIndex st')%Z.
Proof.
  intros key st [-> | ->] Hn st' i it; subst st'.
  - rewrite arrowDown_unfold by exact Hn. intro H.
    rewrite (updateActiveResult_items _ _ _ H). reflexivity.
  - rewrite arrowUp_unfold by exact Hn. intro H.
    rewrite (updateActiveResult_items _ _ _ H). reflexivity.
Qed.

(** X10.  ArrowDown on a dropdown with items, from a focus index of -1 or
    more, leaves exactly one active item, and its effects are the
    prevented default and the scroll to the item now in focus. *)
Theorem arrowDown_selects_and_scrolls :
  forall st,
    (1 <= itemCount st)%nat ->
    (-1 <= currentFocusIndex st)%Z ->
    let st' := handleKeyboardNavigation "ArrowDown" st in
    activeCount (dropdownHTML st') = 1%nat
    /\ effects st'
       = effects st
         ++ [PreventDefault; ScrollIntoView (Z.to_nat (currentFocusIndex st'))].
Proof.
  intros st Hn Hfocus st'. subst st'. rewrite arrowDown_unfold by exact Hn.
  set (st1 := setFocusIndex _ (emit PreventDefault st)).
  assert (Hrange : (0 <= currentFocusIndex st1 < Z.of_nat (itemCount st1))%Z).
  { subst st1. unfold itemCount. cbn. fold (itemCount st). lia. }
  destruct (updateActiveResult_in_range st1 Hrange) as [Hone Heff].
  split; [exact Hone|]. rewrite Heff. subst st1. cbn.
  rewrite <- app_assoc. reflexivity.
Qed.

(** X11.  ArrowUp from the first item, or with no item in focus, leaves no
    item active and the focus index at -1; nothing is scrolled. *)
Theorem arrowUp_from_first_unselects :
  forall st,
    (1 <= itemCount st)%nat ->
    (currentFocusIndex st <= 0)%Z ->
    let st' := handleKeyboardNavigation "ArrowUp" st in
    currentFocusIndex st' = (-1)%Z
    /\ activeCount (dropdownHTML st') = 0%nat
    /\ effects st' = effects st ++ [PreventDefault].
Proof.
  intros st Hn Hfocus st'. subst st'. rewrite arrowUp_unfold by exact Hn.
  set (st1 := setFocusIndex _ (emit PreventDefault st)).
  assert (Hneg : (currentFocusIndex st1 < 0)%Z) by (subst st1; cbn; lia).
  destruct (updateActiveResult_unfocused st1 Hneg) as [Hnone Heff].
  split; [|split].
  - subst st1. cbn. lia.
  - exact Hnone.
  - rewrite Heff. reflexivity.
Qed.

(** X12.  ArrowUp undoes ArrowDown unless the focus was on the last item:
    from a focus index in [[-1, count - 2]] the two presses bring the focus
    index back. *)
Theorem arrowUp_undoes_arrowDown :
  forall st,
    (-1 <= currentFocusIndex st < Z.of_nat (itemCount st) - 1)%Z ->
    currentFocusIndex
      (handleKeyboardNavigation "ArrowUp"
         (handleKeyboardNavigation "ArrowDown" st))
    = currentFocusIndex st.
Proof.
  intros st Hrange.
  assert (Hn : (1 <= itemCount st)%nat) by lia.
  pose proof (arrow_keeps_items "ArrowDown" st (or_introl eq_refl)) as Hcount.
  rewrite arrowUp_focus by (rewrite Hcount; exact Hn).
  rewrite arrowDown_focus by exact Hn. lia.
Qed.

(** X13.  Enter on a dropdown with items prevents the default; it clicks
    the item in focus when the focus index names one, and otherwise does
    nothing more.  The page state is not changed. *)
Theorem enter_clicks_the_focused_item :
  forall st,
    (1 <= itemCount st)%nat ->
    let st' := handleKeyboardNavigation "Enter" st in
    ((0 <= currentFocusIndex st < Z.of_nat (itemCount st))%Z ->
     st' = emit (Click (Z.to_nat (currentFocusIndex st)))
                (emit PreventDefault st))
    /\ (~ (0 <= currentFocusIndex st < Z.of_nat (itemCount st))%Z ->
        st' = emit PreventDefault st)
    /\ dropdownHTML st' = dropdownHTML st
    /\ dropdownShow st' = dropdownShow st
    /\ currentFocusIndex st' = currentFocusIndex st.
Proof.
  intros st Hn st'. subst st'. unfold handleKeyboardNavigation.
  fold (itemCount st).
  destruct (Nat.eqb_spec (itemCount st) 0) as [E|_]; [lia|].
  cbn [String.eqb Ascii.eqb Bool.eqb andb currentFocusIndex emit].
  destruct (Z.leb_spec 0 (currentFocusIndex st)),
           (Z.ltb_spec (currentFocusIndex st) (Z.of_nat (itemCount st)));
    cbn [andb]; repeat split; intros; try reflexivity; lia.
Qed.

(** X14.  A key other than ArrowDown, ArrowUp, Enter and Escape changes
    nothing and its default is not prevented, items or not. *)
Theorem other_keys_pass_through :
  forall key st,
    key <> "ArrowDown"%string -> key <> "ArrowUp"%string ->
    key <> "Enter"%string -> key <> "Escape"%string ->
    handleKeyboardNavigation key st = st.
Proof.
  intros key st Hd Hu He Hx. unfold handleKeyboardNavigation.
  apply String.eqb_neq in Hd, Hu, He, Hx. rewrite Hd, Hu, He, Hx.
  destruct (length (resultItems (dropdownHTML st)) =? 0)%nat; reflexivity.
Qed.

End KeyboardMore.

(** ** The page over a run of events *)

Section PageEvents.
Import Js Search.

Variable toUpperCase : Z -> jsstring.

Local Abbreviation dispatch := (Search.dispatch toUpperCase).
Local Abbreviation dispatchAll := (Search.dispatchAll toUpperCase).
Local Abbreviation performSearch := (Search.performSearch toUpperCase).

Lemma forEachItem_nil :
  forall f i nodes, forEachItem f i nodes = [] <-> nodes = [].
Proof.
  intros f i [|[|it] r]; cbn; split; congruence.
Qed.

Lemma length_forEachItem :
  forall f nodes i, length (forEachItem f i nodes) = length nodes.
Proof.
  intros f. induction nodes as [|[|it] r IH]; intro i; cbn; auto.
Qed.

Lemma isLink_forEachItem :
  forall f nodes i,
    forallb isLink (forEachItem f i nodes) = forallb isLink nodes.
Proof.
  intros f. induction nodes as [|[|it] r IH]; intro i; cbn; auto.
Qed.

Lemma dropdownShape_forEachItem :
  forall f nodes,
    dropdownShape nodes -> dropdownShape (forEachItem f 0 nodes).
Proof.
  intros f nodes [-> | [-> | [Hlinks Hlen]]].
  - left. reflexivity.
  - right. left. reflexivity.
  - right. right. rewrite isLink_forEachItem, length_forEachItem. auto.
Qed.

Lemma length_resultItems :
  forall nodes, (length (resultItems nodes) <= length nodes)%nat.
Proof.
  induction nodes as [|[|it] r IH]; cbn; lia.
Qed.

Lemma dropdownShape_itemCount :
  forall st, dropdownShape (dropdownHTML st) -> (itemCount st <= 8)%nat.
Proof.
  intros st H. unfold itemCount.
  pose proof (length_resultItems (dropdownHTML st)) as Hle.
  destruct H as [H | [H | [_ Hlen]]]; [rewrite H in *; cbn in *; lia .. | lia].
Qed.

Lemma filter_focus_le_one :
  forall focus n s,
    (length (filter (fun i => (Z.of_nat i =? focus)%Z) (seq s n)) <= 1)%nat.
Proof.
  intros focus n s. destruct (Z.le_gt_cases 0 focus) as [Hpos | Hneg].
  - rewrite (filter_single_seq _ _ (focus_predicate focus Hpos)).
    destruct ((s <=? Z.to_nat focus) && (Z.to_nat focus <? s + n))%nat;
      cbn; lia.
  - rewrite filter_none_seq by (intro i; apply Z.eqb_neq; lia). cbn. lia.
Qed.

Lemma isLink_render :
  forall query focus results i,
    forallb isLink (mapIndexed (renderItem toUpperCase query focus) i results)
    = true.
Proof.
  intros query focus. induction results as [|r rs IH]; intro i; cbn; auto.
Qed.

Lemma activeCount_render :
  forall query focus results s,
    activeCount (mapIndexed (renderItem toUpperCase query focus) s results)
    = length (filter (fun i => (Z.of_nat i =? focus)%Z)
                     (seq s (length results))).
Proof.
  intros query focus. unfold activeCount.
  induction results as [|r rs IH]; intro s; [reflexivity|].
  cbn [mapIndexed renderItem resultItems filter active length seq].
  destruct (Z.of_nat s =? focus)%Z; cbn [length]; rewrite IH; reflexivity.
Qed.

Lemma activeCount_forEachItem_setActive :
  forall (p : nat -> bool) nodes,
    activeCount (forEachItem (fun i it => setActive (p i) it) 0 nodes)
    = length (filter p (seq 0 (length (resultItems nodes)))).
Proof.
  intros p nodes. unfold activeCount.
  rewrite resultItems_forEachItem_eq. apply filter_active_mapIndexed.
Qed.

Lemma activeCount_unmark :
  forall (p : nat -> bool) nodes,
    (activeCount
       (forEachItem (fun i it => if p i then setActive false it else it) 0 nodes)
     <= activeCount nodes)%nat.
Proof.
  intros p nodes. unfold activeCount. rewrite resultItems_forEachItem_eq.
  generalize (resultItems nodes) as items, 0%nat as s.
  induction items as [|it items IH]; intro s; [cbn; lia|].
  cbn [mapIndexed filter]. specialize (IH (S s)).
  destruct (p s); cbn [active setActive]; destruct (active it);
    cbn [length]; lia.
Qed.

(** The same change, seen from a state that shows the same. *)
Lemma Change_from :
  forall st0 st st',
    searchIndex st0 = searchIndex st ->
    dropdownHTML st0 = dropdownHTML st ->
    dropdownShow st0 = dropdownShow st ->
    currentFocusIndex st0 = currentFocusIndex st ->
    Change st st' -> Change st0 st'.
Proof.
  intros st0 st st' Hi Hh Hs Hf H.
  assert (Hc : itemCount st0 = itemCount st) by (unfold itemCount; congruence).
  destruct H as [H1 H2 H3 | H1 H2 H3 | H1 H2 H3 H4 H5 H6 | H1 H2 H3 H4 H5 H6].
  - apply Kept; congruence.
  - apply Cleared; assumption.
  - apply Rendered; congruence.
  - apply Remarked; rewrite ?Hc, ?Hh, ?Hs, ?Hf; assumption.
Qed.

Lemma performSearch_Change :
  forall query st, Change st (performSearch query st).
Proof.
  intros query st. unfold Search.performSearch.
  destruct (searchIndex st) as [index|] eqn:Hidx; [|apply Kept; reflexivity].
  destruct (length query <? 2)%nat; [apply Cleared; reflexivity|].
  destruct (search index query queryOptions) as [error | hits];
    [apply Kept; reflexivity|].
  destruct (Array_sort byRelevance hits) as [|r rs].
  - apply Rendered; cbn; try reflexivity; try congruence.
    + right. left. reflexivity.
    + lia.
  - rewrite renderResults_cons.
    apply Rendered;
      cbn [dropdownHTML dropdownShow currentFocusIndex setDropdownShow
           setDropdownHTML setSearchResults inputValue];
      try reflexivity; try congruence.
    + right. right. rewrite isLink_render, length_mapIndexed, length_firstn.
      cbn [length]. split; [reflexivity | lia].
    + discriminate.
    + rewrite activeCount_render. apply filter_focus_le_one.
Qed.

Lemma remark_by_focus :
  forall st focus,
    (1 <= itemCount st)%nat ->
    ((-1 <= currentFocusIndex st)%Z -> (-1 <= focus)%Z) ->
    (focus <= Z.max (currentFocusIndex st) (Z.of_nat (itemCount st) - 1))%Z ->
    Change st (updateActiveResult (setFocusIndex focus (emit PreventDefault st))).
Proof.
  intros st focus Hn Hlo Hhi. apply Remarked; try assumption.
  - eexists. reflexivity.
  - left. unfold updateActiveResult. cbn [dropdownHTML setFocusIndex emit
                                           currentFocusIndex].
    rewrite (activeCount_forEachItem_setActive
               (fun i => (Z.of_nat i =? focus)%Z)).
    apply filter_focus_le_one.
  - reflexivity.
Qed.

Lemma handleKeyboardNavigation_Change :
  forall key st, Change st (handleKeyboardNavigation key st).
Proof.
  intros key st. unfold handleKeyboardNavigation. fold (itemCount st).
  destruct (Nat.eqb_spec (itemCount st) 0) as [E|Hn];
    [apply Kept; reflexivity|].
  destruct (key =? "ArrowDown")%string.
  { apply remark_by_focus; cbn [currentFocusIndex emit]; lia. }
  destruct (key =? "ArrowUp")%string.
  { apply remark_by_focus; cbn [currentFocusIndex emit]; lia. }
  destruct (key =? "Enter")%string.
  { destruct (_ && _); apply Kept; reflexivity. }
  destruct (key =? "Escape")%string; [apply Cleared | apply Kept]; reflexivity.
Qed.

Lemma onMouseEnter_Change :
  forall i st, (i < itemCount st)%nat -> Change st (onMouseEnter i st).
Proof.
  intros i st Hi. apply Remarked.
  - lia.
  - eexists. reflexivity.
  - left.
    change (dropdownHTML (onMouseEnter i st))
      with (forEachItem (fun j it => setActive (j =? i)%nat it) 0
                        (dropdownHTML st)).
    rewrite (activeCount_forEachItem_setActive (fun j => (j =? i)%nat)).
    rewrite (filter_single_seq _ i (fun j => Nat.eqb_eq j i)).
    destruct ((0 <=? i) && (i <? 0 + _))%nat; cbn; lia.
  - reflexivity.
  - cbn. lia.
  - cbn. lia.
Qed.

Lemma onMouseLeave_Change :
  forall i st, (i < itemCount st)%nat -> Change st (onMouseLeave i st).
Proof.
  intros i st Hi. apply Remarked.
  - lia.
  - eexists. reflexivity.
  - right. apply (activeCount_unmark (fun j => (j =? i)%nat)).
  - reflexivity.
  - cbn. lia.
  - cbn. lia.
Qed.

Lemma dispatch_Change :
  forall ev p, Change (state p) (state (dispatch ev p)).
Proof.
  intros ev [st t]. destruct ev as [v | | key | inside | | i | i];
    unfold Search.dispatch; cbn [state timer].
  - apply Kept; reflexivity.
  - destruct t as [[]|]; cbn; [apply performSearch_Change | apply Kept; reflexivity].
  - apply handleKeyboardNavigation_Change.
  - destruct inside; [apply Kept | apply Cleared]; reflexivity.
  - unfold onFocus.
    match goal with |- context [if ?c then _ else _] => destruct c end.
    + eapply Change_from; [| | | | apply performSearch_Change]; reflexivity.
    + apply Kept; reflexivity.
  - destruct (Nat.ltb_spec i (itemCount st)); cbn [state];
      [apply onMouseEnter_Change; assumption | apply Kept; reflexivity].
  - destruct (Nat.ltb_spec i (itemCount st)); cbn [state];
      [apply onMouseLeave_Change; assumption | apply Kept; reflexivity].
Qed.

Lemma Change_show :
  forall st st',
    Change st st' -> showMatchesContent st -> showMatchesContent st'.
Proof.
  unfold showMatchesContent.
  intros st st' [H1 H2 H3 | H1 H2 H3 | _ _ H3 _ H5 _ | _ [f Hf] _ H4 _ _] Hinv.
  - rewrite H1, H2. exact Hinv.
  - rewrite H1, H2. split; [discriminate | congruence].
  - rewrite H5. split; auto.
  - rewrite H4, Hf.
    split; intro H.
    + intro E. apply forEachItem_nil in E. apply Hinv in H. contradiction.
    + apply Hinv. intro E. apply H. apply forEachItem_nil. exact E.
Qed.

Lemma Change_shape :
  forall st st',
    Change st st' ->
    dropdownShape (dropdownHTML st) -> dropdownShape (dropdownHTML st').
Proof.
  intros st st' [H1 _ _ | H1 _ _ | _ H2 _ _ _ _ | _ [f Hf] _ _ _ _] Hinv.
  - rewrite H1. exact Hinv.
  - rewrite H1. left. reflexivity.
  - exact H2.
  - rewrite Hf. apply dropdownShape_forEachItem. exact Hinv.
Qed.

Lemma Change_active :
  forall st st',
    Change st st' ->
    (activeCount (dropdownHTML st) <= 1)%nat ->
    (activeCount (dropdownHTML st') <= 1)%nat.
Proof.
  intros st st' [H1 _ _ | H1 _ _ | _ _ _ H4 _ _ | _ _ [H3 | H3] _ _ _] Hinv.
  - rewrite H1. exact Hinv.
  - rewrite H1. cbn. lia.
  - exact H4.
  - exact H3.
  - lia.
Qed.

Lemma Change_focus :
  forall st st',
    Change st st' ->
    dropdownShape (dropdownHTML st) ->
    (-1 <= currentFocusIndex st <= 7)%Z ->
    (-1 <= currentFocusIndex st' <= 7)%Z.
Proof.
  intros st st' [_ _ H3 | _ _ H3 | _ _ _ _ _ H6 | _ _ _ _ H5 H6] Hshape Hinv.
  - rewrite H3. exact Hinv.
  - rewrite H3. lia.
  - rewrite H6. exact Hinv.
  - pose proof (dropdownShape_itemCount st Hshape). lia.
Qed.

Lemma dispatchAll_cons :
  forall ev evs p, dispatchAll (ev :: evs) p = dispatchAll evs (dispatch ev p).
Proof. reflexivity. Qed.

(** X15.  Over any run of events the class 'show' stays in step with the
    content: if the dropdown was shown exactly when it had content, it
    still is. *)
Theorem show_matches_content_throughout :
  forall evs p,
    showMatchesContent (state p) ->
    showMatchesContent (state (dispatchAll evs p)).
Proof.
  induction evs as [|ev evs IH]; intros p Hinv; [exact Hinv|].
  rewrite dispatchAll_cons. apply IH.
  exact (Change_show _ _ (dispatch_Change ev p) Hinv).
Qed.

(** X16.  On a page whose index returns plain hits only, over any run of
    events the dropdown keeps its shape: empty, or the no-results message
    alone, or one to eight result links and nothing else; so it never holds
    more than eight items. *)
Theorem dropdown_shape_throughout :
  forall evs p,
    plainIndex (searchIndex (state p)) ->
    dropdownShape (dropdownHTML (state p)) ->
    dropdownShape (dropdownHTML (state (dispatchAll evs p)))
    /\ (itemCount (state (dispatchAll evs p)) <= 8)%nat.
Proof.
  assert (H : forall evs p,
             dropdownShape (dropdownHTML (state p)) ->
             dropdownShape (dropdownHTML (state (dispatchAll evs p)))).
  { induction evs as [|ev evs IH]; intros p Hinv; [exact Hinv|].
    rewrite dispatchAll_cons. apply IH.
    exact (Change_shape _ _ (dispatch_Change ev p) Hinv). }
  intros evs p _ Hinv. split; [apply H; exact Hinv|].
  apply dropdownShape_itemCount, H, Hinv.
Qed.

Lemma activeCount_dispatchAll :
  forall evs p,
    (activeCount (dropdownHTML (state p)) <= 1)%nat ->
    (activeCount (dropdownHTML (state (dispatchAll evs p))) <= 1)%nat.
Proof.
  induction evs as [|ev evs IH]; intros p Hinv; [exact Hinv|].
  rewrite dispatchAll_cons. apply IH.
  exact (Change_active _ _ (dispatch_Change ev p) Hinv).
Qed.

(** X17.  On a page whose index returns plain hits only, over any run of
    events at most one result item carries the class 'active', if that was
    so at the start. *)
Theorem at_most_one_active_throughout :
  forall evs p,
    plainIndex (searchIndex (state p)) ->
    (activeCount (dropdownHTML (state p)) <= 1)%nat ->
    (activeCount (dropdownHTML (state (dispatchAll evs p))) <= 1)%nat.
Proof.
  intros evs p _. apply activeCount_dispatchAll.
Qed.

Lemma focus_dispatchAll :
  forall evs p,
    dropdownShape (dropdownHTML (state p)) ->
    (-1 <= currentFocusIndex (state p) <= 7)%Z ->
    (-1 <= currentFocusIndex (state (dispatchAll evs p)) <= 7)%Z.
Proof.
  induction evs as [|ev evs IH]; intros p Hshape Hinv; [exact Hinv|].
  rewrite dispatchAll_cons. apply IH.
  - exact (Change_shape _ _ (dispatch_Change ev p) Hshape).
  - exact (Change_focus _ _ (dispatch_Change ev p) Hshape Hinv).
Qed.

(** X18.  On a page whose index returns plain hits only, over any run of
    events, from a dropdown of the right shape, the focus index stays
    between -1 and 7. *)
Theorem focus_index_bounded_throughout :
  forall evs p,
    plainIndex (searchIndex (state p)) ->
    dropdownShape (dropdownHTML (state p)) ->
    (-1 <= currentFocusIndex (state p) <= 7)%Z ->
    (-1 <= currentFocusIndex (state (dispatchAll evs p)) <= 7)%Z.
Proof.
  intros evs p _. apply focus_dispatchAll.
Qed.

Lemma searchIndex_renderResults :
  forall results st,
    searchIndex (renderResults toUpperCase results st) = searchIndex st.
Proof. intros [|r rs] st; reflexivity. Qed.

Lemma searchIndex_performSearch :
  forall query st, searchIndex (performSearch query st) = searchIndex st.
Proof.
  intros query st. unfold Search.performSearch.
  destruct (searchIndex st) as [index|] eqn:Hidx; [|exact Hidx].
  destruct (length query <? 2)%nat; [exact Hidx|].
  destruct (search index query queryOptions); [exact Hidx|].
  rewrite searchIndex_renderResults. exact Hidx.
Qed.

Lemma searchIndex_handleKeyboardNavigation :
  forall key st, searchIndex (handleKeyboardNavigation key st) = searchIndex st.
Proof.
  intros key st. unfold handleKeyboardNavigation.
  repeat match goal with
         | |- context [if ?c then _ else _] => destruct c
         end; reflexivity.
Qed.

Lemma searchIndex_dispatch :
  forall ev p, searchIndex (state (dispatch ev p)) = searchIndex (state p).
Proof.
  intros ev [st t]. destruct ev as [v | | key | inside | | i | i];
    unfold Search.dispatch; cbn [state timer].
  - reflexivity.
  - destruct t as [[]|]; cbn; [apply searchIndex_performSearch | reflexivity].
  - apply searchIndex_handleKeyboardNavigation.
  - destruct inside; reflexivity.
  - unfold onFocus.
    match goal with |- context [if ?c then _ else _] => destruct c end;
      [rewrite searchIndex_performSearch|]; reflexivity.
  - destruct (i <? itemCount st)%nat; reflexivity.
  - destruct (i <? itemCount st)%nat; reflexivity.
Qed.

(** X19.  No listener assigns the search index: after any run of events it
    is what the load left, so a loaded index is never dropped and a failed
    load is never made up for. *)
Theorem search_index_fixed_after_load :
  forall evs p,
    searchIndex (state (dispatchAll evs p)) = searchIndex (state p).
Proof.
  induction evs as [|ev evs IH]; intro p; [reflexivity|].
  rewrite dispatchAll_cons, IH. apply searchIndex_dispatch.
Qed.

Lemma dispatch_disabled :
  forall ev p,
    searchDisabled (state p) ->
    searchDisabled (state (dispatch ev p))
    /\ searchResults (state (dispatch ev p)) = searchResults (state p).
Proof.
  intros ev [st t] (Hidx & Hhtml & Hshow & Hfocus). cbn [state] in *.
  assert (Hcount : itemCount st = 0%nat)
    by (unfold itemCount; rewrite Hhtml; reflexivity).
  assert (Hsearch : forall q st0, searchIndex st0 = None ->
                      performSearch q st0 = emit (ConsoleWarn MsgIndexNotLoaded) st0).
  { intros q st0 H0. unfold Search.performSearch. rewrite H0. reflexivity. }
  unfold searchDisabled.
  destruct ev as [v | | key | inside | | i | i];
    unfold Search.dispatch; cbn [state timer].
  - cbn. auto.
  - destruct t as [[]|]; cbn [debounceStep state].
    + unfold onInput. rewrite (Hsearch _ st Hidx). cbn. auto.
    + auto.
  - unfold handleKeyboardNavigation. fold (itemCount st). rewrite Hcount.
    cbn. auto.
  - destruct inside; cbn; auto.
  - unfold onFocus.
    match goal with |- context [if ?c then _ else _] => destruct c end.
    + rewrite (Hsearch _ (setInputFocused true st) Hidx). cbn. auto.
    + cbn. auto.
  - rewrite Hcount. cbn. auto.
  - rewrite Hcount. cbn. auto.
Qed.

(** X20.  When the load has failed and nothing is in the dropdown, no run
    of events brings anything up: the index stays unset, the dropdown empty
    and hidden, the focus index -1, and the stored results as they were. *)
Theorem failed_load_disables_search :
  forall evs p,
    searchDisabled (state p) ->
    searchDisabled (state (dispatchAll evs p))
    /\ searchResults (state (dispatchAll evs p)) = searchResults (state p).
Proof.
  induction evs as [|ev evs IH]; intros p Hinv; [split; [exact Hinv | reflexivity]|].
  rewrite dispatchAll_cons.
  destruct (dispatch_disabled ev p Hinv) as [Hnext Hres].
  destruct (IH _ Hnext) as [Hend Hres']. split; [exact Hend | congruence].
Qed.

Lemma dispatchAll_inputs :
  forall values value p,
    dispatchAll (map Input (values ++ [value])) p
    = mkPage (setInputValue value (state p)) (Some tt).
Proof.
  induction values as [|v values IH]; intros value p.
  - reflexivity.
  - cbn [app map]. rewrite dispatchAll_cons, IH. reflexivity.
Qed.

(** X21.  Edits of the input that follow one another before the timer runs
    out cause one search, made when it runs out, with the last value
    trimmed; the values before it are never searched for. *)
Theorem typing_burst_searches_once :
  forall values value p,
    dispatchAll (map Input (values ++ [value]) ++ [TimerFires]) p
    = mkPage (performSearch (trim value) (setInputValue value (state p))) None.
Proof.
  intros values value p. unfold Search.dispatchAll.
  rewrite fold_left_app. fold (dispatchAll (map Input (values ++ [value])) p).
  rewrite dispatchAll_inputs. reflexivity.
Qed.

(** X22.  When the pointer enters an item of the dropdown, that item alone
    carries the class 'active' and the focus index is its index; the items
    are the same in number. *)
Theorem mouseenter_focuses_the_item :
  forall i st,
    (i < itemCount st)%nat ->
    let st' := onMouseEnter i st in
    currentFocusIndex st' = Z.of_nat i
    /\ itemCount st' = itemCount st
    /\ activeCount (dropdownHTML st') = 1%nat
    /\ (forall j it,
          nth_error (resultItems (dropdownHTML st')) j = Some it ->
          active it = (j =? i)%nat).
Proof.
  intros i st Hi st'. subst st'.
  change (dropdownHTML (onMouseEnter i st))
    with (forEachItem (fun j it => setActive (j =? i)%nat it) 0
                      (dropdownHTML st)).
  split; [reflexivity|]. split; [|split].
  - unfold itemCount.
    change (dropdownHTML (onMouseEnter i st))
      with (forEachItem (fun j it => setActive (j =? i)%nat it) 0
                        (dropdownHTML st)).
    apply resultItems_forEachItem.
  - rewrite (activeCount_forEachItem_setActive (fun j => (j =? i)%nat)).
    rewrite (filter_single_seq _ i (fun j => Nat.eqb_eq j i)).
    unfold itemCount in Hi.
    destruct (Nat.leb_spec 0 i); [|lia].
    destruct (Nat.ltb_spec i (0 + length (resultItems (dropdownHTML st))));
      [reflexivity | lia].
  - intros j it. rewrite resultItems_forEachItem_eq, nth_error_mapIndexed.
    cbn [Nat.add].
    destruct (nth_error (resultItems (dropdownHTML st)) j); [|discriminate].
    intro H. inversion H. reflexivity.
Qed.

End PageEvents.

(** ** More on the random-number button *)

Section ButtonMore.
Import Js Play.

Variable Number_toString : Q -> jsstring.

Local Abbreviation ToString := (Play.ToString Number_toString).
Local Abbreviation onClick := (Play.onClick Number_toString).

(** The conversion throws on the values [ownToStringInside] names and on
    no other. *)
Lemma ToString_result :
  forall j,
    (ownToStringInside j = true -> ToString j = inl TypeError)
    /\ (ownToStringInside j = false -> exists s, ToString j = inr s).
Proof.
  fix IH 1. intro j.
  destruct j as [| b | n | s | elems | members];
    try (split; [discriminate | intros _; cbn; eexists; reflexivity]).
  - cbn [ownToStringInside Play.ToString].
    induction elems as [|e r IHr];
      [split; [discriminate | intros _; eexists; reflexivity]|].
    cbn [existsb].
    assert (He : (ownToStringInside e = true ->
                  match e with JNull => inr [] | _ => ToString e end
                  = inl TypeError)
                 /\ (ownToStringInside e = false ->
                     exists s, match e with JNull => inr [] | _ => ToString e end
                               = inr s)).
    { pose proof (IH e) as H. destruct e; try exact H.
      split; [discriminate | intros _; eexists; reflexivity]. }
    destruct He as [Hthrow Hok], IHr as [IHthrow IHok].
    destruct (ownToStringInside e); cbn [orb].
    + split; [intros _ | discriminate]. rewrite (Hthrow eq_refl). reflexivity.
    + destruct (Hok eq_refl) as [s Hs]. rewrite Hs.
      destruct r as [|e' r']; [split; [discriminate | intros _; eexists; reflexivity]|].
      split; intro Hr.
      * rewrite (IHthrow Hr). reflexivity.
      * destruct (IHok Hr) as [t Ht]. rewrite Ht. eexists. reflexivity.
  - cbn [ownToStringInside Play.ToString].
    destruct (hasMember (lit "toString") members);
      split; try discriminate; intros _; [reflexivity | eexists; reflexivity].
Qed.

Lemma successMessage_result :
  forall data,
    (numberFieldThrows data = true ->
     Play.successMessage Number_toString data = inl TypeError)
    /\ (numberFieldThrows data = false ->
        exists s, Play.successMessage Number_toString data
                  = inr (successPrefix ++ s)).
Proof.
  intros data. unfold Play.successMessage, numberFieldThrows, getNumber.
  destruct data as [| b | n | s | elems | members];
    try (split; [discriminate | intros _; cbn; eexists; reflexivity]).
  - split; [reflexivity | discriminate].
  - destruct (getMember (lit "number") members) as [v|];
      [|split; [discriminate | intros _; cbn; eexists; reflexivity]].
    cbn [Play.valueToString]. destruct (ToString_result v) as [Hthrow Hok].
    split; intro H.
    + rewrite (Hthrow H). reflexivity.
    + destruct (Hok H) as [s Hs]. rewrite Hs. eexists. reflexivity.
Qed.

(** X23.  Which bodies give the failure message: the click sets it exactly
    when the fetch throws, the body does not parse, the body is [null], or
    the body is an object whose member [number] is, or holds inside
    arrays, an object with a member [toString] of its own. *)
Theorem click_failure_by_body :
  forall fetched text,
    onClick fetched text = failureMessage <->
    fetchOrParseThrows fetched = true
    \/ exists resp data,
         fetched = inr resp /\ json resp = inr data
         /\ numberFieldThrows data = true.
Proof.
  intros fetched text. destruct fetched as [e | resp]; cbn.
  - split; auto.
  - destruct (json resp) as [e | data] eqn:Hjson.
    + split; auto.
    + destruct (successMessage_result data) as [Hthrow Hok].
      destruct (numberFieldThrows data) eqn:Hthrows.
      * rewrite (Hthrow eq_refl). split; [intros _|reflexivity].
        right. exists resp, data. auto.
      * destruct (Hok eq_refl) as [s Hs]. rewrite Hs. split.
        -- intro Heq. exfalso. exact (success_is_not_failure s Heq).
        -- intros [Hf | (resp' & data' & Hr & Hj & Ht)]; [discriminate|].
           inversion Hr; subst resp'. rewrite Hjson in Hj.
           inversion Hj; subst data'. congruence.
Qed.

(** X24.  A body that parses to anything but [null] and has no member
    [number] of its own (an object without it, an array, a string, a
    number, a boolean) gives the success prefix followed by "undefined". *)
Theorem click_without_number_field :
  forall resp data text,
    json resp = inr data ->
    data <> JNull ->
    (forall members, data = JObject members ->
                     getMember (lit "number") members = None) ->
    onClick (inr resp) text = successPrefix ++ lit "undefined".
Proof.
  intros resp data text Hjson Hnull Hmiss. cbn. rewrite Hjson.
  unfold Play.successMessage, getNumber.
  destruct data as [| b | n | s | elems | members]; try reflexivity.
  - congruence.
  - rewrite (Hmiss members eq_refl). reflexivity.
Qed.

End ButtonMore.

(** ** More on the listeners *)

Section ListenersMore.
Import Js Search.

(** X25.  The class 'active' and the focus index can part: when the
    pointer is on an item, ArrowDown moves the focus to the next item, and
    the pointer then leaves, the next item still carries 'active' but the
    focus index is -1, so that Enter clicks nothing. *)
Theorem mouseleave_after_arrow_unfocuses_marked_item :
  forall i st,
    (S i < itemCount st)%nat ->
    let st' := onMouseLeave i
                 (handleKeyboardNavigation "ArrowDown" (onMouseEnter i st)) in
    currentFocusIndex st' = (-1)%Z
    /\ (exists it, nth_error (resultItems (dropdownHTML st')) (S i) = Some it
                   /\ active it = true)
    /\ handleKeyboardNavigation "Enter" st' = emit PreventDefault st'.
Proof.
  intros i st Hi st'.
  assert (Hc1 : itemCount (onMouseEnter i st) = itemCount st).
  { unfold itemCount.
    change (dropdownHTML (onMouseEnter i st))
      with (forEachItem (fun j it => setActive (j =? i)%nat it) 0
                        (dropdownHTML st)).
    apply resultItems_forEachItem. }
  assert (Hn1 : (1 <= itemCount (onMouseEnter i st))%nat) by lia.
  assert (Hc3 : itemCount st' = itemCount st).
  { subst st'. unfold itemCount.
    change (dropdownHTML (onMouseLeave i ?s))
      with (forEachItem
              (fun j it => if (j =? i)%nat then setActive false it else it) 0
              (dropdownHTML s)).
    rewrite resultItems_forEachItem.
    fold (itemCount (handleKeyboardNavigation "ArrowDown" (onMouseEnter i st))).
    rewrite (arrow_keeps_items "ArrowDown" _ (or_introl eq_refl)). exact Hc1. }
  split; [reflexivity|]. split.
  - subst st'.
    change (dropdownHTML (onMouseLeave i ?s))
      with (forEachItem
              (fun j it => if (j =? i)%nat then setActive false it else it) 0
              (dropdownHTML s)).
    rewrite resultItems_forEachItem_eq, nth_error_mapIndexed.
    cbn [Nat.add].
    destruct (nth_error
                (resultItems
                   (dropdownHTML
                      (handleKeyboardNavigation "ArrowDown" (onMouseEnter i st))))
                (S i)) as [it|] eqn:Hnth.
    + exists it. destruct (Nat.eqb_spec (S i) i) as [E|_]; [lia|].
      split; [reflexivity|].
      rewrite arrowDown_unfold in Hnth by exact Hn1.
      rewrite (updateActiveResult_items _ _ _ Hnth).
      cbn [currentFocusIndex setFocusIndex emit]. rewrite Hc1.
      change (currentFocusIndex (onMouseEnter i st)) with (Z.of_nat i).
      apply Z.eqb_eq. lia.
    + exfalso. apply nth_error_None in Hnth.
      fold (itemCount (handleKeyboardNavigation "ArrowDown" (onMouseEnter i st)))
        in Hnth.
      rewrite (arrow_keeps_items "ArrowDown" _ (or_introl eq_refl)) in Hnth. lia.
  - unfold handleKeyboardNavigation at 1. fold (itemCount st').
    destruct (Nat.eqb_spec (itemCount st') 0) as [E|_]; [lia|].
    reflexivity.
Qed.

Section Debounced.

Variable Arg : Type.

(** X26.  debounce coalesces: of calls that follow one another before the
    timer runs out only the last reaches [fn], once, when it runs out;
    and while it has not run out, [fn] is not called at all. *)
Theorem debounce_passes_last_call_only :
  forall (args : list Arg) (last : Arg) rest timer,
    debounceRun (map Call args ++ Call last :: Elapse :: rest) timer
    = last :: debounceRun rest None
    /\ debounceRun (map Call args) timer = [].
Proof.
  induction args as [|a args IH]; intros last rest timer.
  - split; reflexivity.
  - cbn [map app debounceRun debounceStep].
    destruct (IH last rest (Some a)) as [H1 H2]. split; assumption.
Qed.

End Debounced.

Variable toUpperCase : Z -> jsstring.
Variable MiniSearch_loadJSON : Json -> LoadOptions -> Exn + SearchIndex.

(** X27.  The load sets the index exactly when every step succeeds: the
    fetch gives a response, its status is ok, its body parses and the
    library accepts the data.  Whatever happens, one line goes to the
    console and the dropdown, the stored results and the focus index are
    not touched. *)
Theorem load_sets_index_iff_every_step_succeeds :
  forall fetched st,
    searchIndex st = None ->
    let st' := loadSearchIndex MiniSearch_loadJSON fetched st in
    (forall index,
        searchIndex st' = Some index <->
        exists response data,
          fetched = inr response /\ ok response = true
          /\ json response = inr data
          /\ MiniSearch_loadJSON data loadOptions = inr index)
    /\ length (effects st') = S (length (effects st))
    /\ dropdownHTML st' = dropdownHTML st
    /\ dropdownShow st' = dropdownShow st
    /\ searchResults st' = searchResults st
    /\ currentFocusIndex st' = currentFocusIndex st.
Proof.
  intros fetched st Hnone st'. subst st'. unfold loadSearchIndex.
  destruct fetched as [e | response].
  { cbn. rewrite Hnone, length_app. cbn.
    repeat split; try lia; try discriminate.
    intros (r & d & Hf & _). discriminate Hf. }
  destruct (ok response) eqn:Hok; cbn [negb].
  2:{ cbn. rewrite Hnone, length_app. cbn.
      repeat split; try lia; try discriminate.
      intros (r & d & Hf & Hok' & _). inversion Hf; subst r. congruence. }
  destruct (json response) as [e | data] eqn:Hjson.
  { cbn. rewrite Hnone, length_app. cbn.
    repeat split; try lia; try discriminate.
    intros (r & d & Hf & _ & Hj & _). inversion Hf; subst r. congruence. }
  destruct (MiniSearch_loadJSON data loadOptions) as [e | built] eqn:Hbuilt.
  { cbn. rewrite Hnone, length_app. cbn.
    repeat split; try lia; try discriminate.
    intros (r & d & Hf & _ & Hj & Hb). inversion Hf; subst r.
    rewrite Hjson in Hj. inversion Hj; subst d. congruence. }
  cbn. rewrite length_app. cbn. repeat split; try lia.
  - intro H. inversion H; subst index. exists response, data. auto.
  - intros (r & d & Hf & _ & Hj & Hb). inversion Hf; subst r.
    rewrite Hjson in Hj. inversion Hj; subst d. congruence.
Qed.

Lemma length_trimStart :
  forall s, (length (trimStart s) <= length s)%nat.
Proof.
  induction s as [|c s IH]; [cbn; lia|].
  cbn [trimStart]. destruct (isWhiteSpace c); cbn [length]; lia.
Qed.

Lemma length_trim : forall s, (length (trim s) <= length s)%nat.
Proof.
  intro s. unfold trim. rewrite length_rev.
  pose proof (length_trimStart (rev (trimStart s))) as H1.
  pose proof (length_trimStart s) as H2. rewrite length_rev in H1. lia.
Qed.

Lemma trimStart_blank :
  forall s, Forall (fun c => isWhiteSpace c = true) s -> trimStart s = [].
Proof.
  induction 1 as [|c s Hc _ IH]; [reflexivity|].
  cbn [trimStart]. rewrite Hc. exact IH.
Qed.

(** X28.  When the timer runs out on an input whose value is blank (white
    space only) or shorter than two units, and the index is loaded, no
    search is made: the dropdown is emptied and hidden, the stored results
    are dropped and the focus index is reset. *)
Theorem blank_or_short_input_clears :
  forall st index,
    searchIndex st = Some index ->
    Forall (fun c => isWhiteSpace c = true) (inputValue st)
    \/ (length (inputValue st) < 2)%nat ->
    onInput toUpperCase st
    = setFocusIndex (-1) (setSearchResults [] (clearDropdown st)).
Proof.
  intros st index Hidx Hvalue. unfold onInput, performSearch. rewrite Hidx.
  assert (Hshort : (length (trim (inputValue st)) < 2)%nat).
  { destruct Hvalue as [Hblank | Hlen].
    - unfold trim. rewrite (trimStart_blank _ Hblank). cbn. lia.
    - pose proof (length_trim (inputValue st)). lia. }
  destruct (Nat.ltb_spec (length (trim (inputValue st))) 2); [reflexivity | lia].
Qed.

End ListenersMore.

(** ** The added properties on examples *)

(** X1 on a query made of special characters. *)
Lemma escapeRegExp_pattern_is_literal_witness :
  Search.parseGroup (40%Z :: Search.escapeRegExp (Js.lit "a.b(c)*") ++ [41%Z])
  = Some (Js.lit "a.b(c)*").
Proof.
  exact (proj1 (escapeRegExp_pattern_is_literal (Js.lit "a.b(c)*"))).
Defined.

(** X5 on three hits, two of them with the same score. *)
Lemma stored_results_by_score_then_weight_witness :
  StronglySorted Search.byScoreThenWeight
    (Search.searchResults
       (Search.performSearch Search.asciiUpperCase (Js.lit "ro")
          (Search.loadedPage (Search.fixedIndex Search.tiedHits) (Js.lit "ro")))).
Proof.
  apply (stored_results_by_score_then_weight Search.asciiUpperCase (Js.lit "ro")
           (Search.loadedPage (Search.fixedIndex Search.tiedHits) (Js.lit "ro"))
           (Search.fixedIndex Search.tiedHits) Search.tiedHits eq_refl).
  - vm_compute. lia.
  - reflexivity.
  - intros a b Ha Hb. cbn in Ha, Hb.
    destruct Ha as [<- | [<- | [<- | []]]];
      destruct Hb as [<- | [<- | [<- | []]]];
      ((left; vm_compute; reflexivity) || (right; vm_compute; reflexivity)).
Defined.

(** X6 on three hits with scores within 0.1 of each other. *)
Lemma stored_results_by_weight_when_scores_close_witness :
  StronglySorted (fun a b => Search.weight b <= Search.weight a)%Q
    (Search.searchResults
       (Search.performSearch Search.asciiUpperCase (Js.lit "ro")
          (Search.loadedPage (Search.fixedIndex Search.closeHits) (Js.lit "ro")))).
Proof.
  apply (stored_results_by_weight_when_scores_close Search.asciiUpperCase
           (Js.lit "ro")
           (Search.loadedPage (Search.fixedIndex Search.closeHits) (Js.lit "ro"))
           (Search.fixedIndex Search.closeHits) Search.closeHits eq_refl).
  - vm_compute. lia.
  - reflexivity.
  - intros a b Ha Hb. cbn in Ha, Hb.
    destruct Ha as [<- | [<- | [<- | []]]];
      destruct Hb as [<- | [<- | [<- | []]]];
      vm_compute; discriminate.
Defined.

(** X7 on an index whose search throws, with a dropdown already shown. *)
Lemma search_error_is_logged_only_witness :
  let st := Search.setSearchIndex (Some Search.throwingIndex) Search.shownPage in
  Search.dropdownHTML (Search.performSearch Search.asciiUpperCase (Js.lit "ro") st)
  = Search.dropdownHTML st.
Proof.
  intro st.
  assert (Hlen : (2 <= length (Js.lit "ro"))%nat) by (vm_compute; lia).
  exact (proj1 (proj2 (search_error_is_logged_only Search.asciiUpperCase
                         (Js.lit "ro") st Search.throwingIndex
                         (Js.OtherError 1) eq_refl Hlen eq_refl))).
Defined.

(** X8 on ten hits. *)
Lemma search_with_hits_fills_dropdown_witness :
  Search.itemCount Search.shownPage = 8%nat
  /\ length (Search.searchResults Search.shownPage) = 10%nat.
Proof.
  assert (Hlen : (2 <= length (Js.lit "ro"))%nat) by (vm_compute; lia).
  assert (Hne : Search.tenHits <> []) by (vm_compute; discriminate).
  destruct (search_with_hits_fills_dropdown Search.asciiUpperCase (Js.lit "ro")
              (Search.loadedPage (Search.fixedIndex Search.tenHits) (Js.lit "ro"))
              (Search.fixedIndex Search.tenHits) Search.tenHits
              eq_refl Hlen eq_refl Hne eq_refl) as [Hstored [Hitems _]].
  split; [exact Hitems | exact Hstored].
Defined.

(** X9 on the shown page: after ArrowDown the first item is the active
    one. *)
Lemma arrow_marks_the_focused_item_witness :
  option_map Search.active
    (nth_error
       (Search.resultItems
          (Search.dropdownHTML
             (Search.handleKeyboardNavigation "ArrowDown" Search.shownPage)))
       0)
  = Some true.
Proof.
  assert (Hn : (1 <= Search.itemCount Search.shownPage)%nat)
    by (vm_compute; lia).
  destruct (nth_error
              (Search.resultItems
                 (Search.dropdownHTML
                    (Search.handleKeyboardNavigation "ArrowDown"
                                                     Search.shownPage)))
              0) as [it|] eqn:H.
  - cbn [option_map]. f_equal.
    rewrite (arrow_marks_the_focused_item "ArrowDown" Search.shownPage
               (or_introl eq_refl) Hn 0%nat it H).
    reflexivity.
  - vm_compute in H. discriminate H.
Defined.

(** X10 on the shown page. *)
Lemma arrowDown_selects_and_scrolls_witness :
  Search.activeCount
    (Search.dropdownHTML
       (Search.handleKeyboardNavigation "ArrowDown" Search.shownPage))
  = 1%nat.
Proof.
  assert (Hn : (1 <= Search.itemCount Search.shownPage)%nat)
    by (vm_compute; lia).
  assert (Hf : (-1 <= Search.currentFocusIndex Search.shownPage)%Z)
    by (vm_compute; discriminate).
  exact (proj1 (arrowDown_selects_and_scrolls Search.shownPage Hn Hf)).
Defined.

(** X11 on the shown page, where no item is in focus. *)
Lemma arrowUp_from_first_unselects_witness :
  Search.currentFocusIndex
    (Search.handleKeyboardNavigation "ArrowUp" Search.shownPage)
  = (-1)%Z.
Proof.
  assert (Hn : (1 <= Search.itemCount Search.shownPage)%nat)
    by (vm_compute; lia).
  assert (Hf : (Search.currentFocusIndex Search.shownPage <= 0)%Z)
    by (vm_compute; discriminate).
  exact (proj1 (arrowUp_from_first_unselects Search.shownPage Hn Hf)).
Defined.

(** X12 on the shown page. *)
Lemma arrowUp_undoes_arrowDown_witness :
  Search.currentFocusIndex
    (Search.handleKeyboardNavigation "ArrowUp"
       (Search.handleKeyboardNavigation "ArrowDown" Search.shownPage))
  = (-1)%Z.
Proof.
  apply (arrowUp_undoes_arrowDown Search.shownPage).
  vm_compute. split; [discriminate | reflexivity].
Defined.

(** X13 on the shown page with the third item in focus. *)
Lemma enter_clicks_the_focused_item_witness :
  let st := Search.setFocusIndex 2 Search.shownPage in
  Search.handleKeyboardNavigation "Enter" st
  = Search.emit (Search.Click 2) (Search.emit Search.PreventDefault st).
Proof.
  intro st.
  assert (Hn : (1 <= Search.itemCount st)%nat) by (vm_compute; lia).
  apply (proj1 (enter_clicks_the_focused_item st Hn)).
  vm_compute. split; [discriminate | reflexivity].
Defined.

(** X14 on the key ["a"]. *)
Lemma other_keys_pass_through_witness :
  Search.handleKeyboardNavigation "a" Search.shownPage = Search.shownPage.
Proof.
  apply other_keys_pass_through; discriminate.
Defined.

(** X15 on a page that starts empty and goes through [sampleEvents];
    X16 to X18 below on one that goes through [browseEvents]. *)
Lemma show_matches_content_throughout_witness :
  Search.showMatchesContent
    (Search.state
       (Search.dispatchAll Search.asciiUpperCase Search.sampleEvents
          (Search.mkPage (Search.loadedPage (Search.fixedIndex Search.tenHits) [])
                         None))).
Proof.
  apply show_matches_content_throughout.
  split; [discriminate | intro H; exfalso; apply H; reflexivity].
Defined.

(** The index that answers with [tenHits] returns plain hits only. *)
Lemma plainIndex_tenHits :
  Search.plainIndex (Some (Search.fixedIndex Search.tenHits)).
Proof.
  intros built query options hits Hb Hs. inversion Hb; subst built.
  cbn in Hs. inversion Hs; subst hits. reflexivity.
Defined.

Lemma dropdown_shape_throughout_witness :
  (Search.itemCount
     (Search.state
        (Search.dispatchAll Search.asciiUpperCase Search.browseEvents
           (Search.mkPage (Search.loadedPage (Search.fixedIndex Search.tenHits) [])
                          None)))
   <= 8)%nat.
Proof.
  apply dropdown_shape_throughout;
    [exact plainIndex_tenHits | left; reflexivity].
Defined.

Lemma at_most_one_active_throughout_witness :
  (Search.activeCount
     (Search.dropdownHTML
        (Search.state
           (Search.dispatchAll Search.asciiUpperCase Search.browseEvents
              (Search.mkPage
                 (Search.loadedPage (Search.fixedIndex Search.tenHits) [])
                 None))))
   <= 1)%nat.
Proof.
  apply at_most_one_active_throughout;
    [exact plainIndex_tenHits | vm_compute; lia].
Defined.

Lemma focus_index_bounded_throughout_witness :
  (-1 <= Search.currentFocusIndex
           (Search.state
              (Search.dispatchAll Search.asciiUpperCase Search.browseEvents
                 (Search.mkPage
                    (Search.loadedPage (Search.fixedIndex Search.tenHits) [])
                    None)))
   <= 7)%Z.
Proof.
  apply focus_index_bounded_throughout.
  - exact plainIndex_tenHits.
  - left. reflexivity.
  - vm_compute. split; discriminate.
Defined.

(** X20 on the page after a failed load. *)
Lemma failed_load_disables_search_witness :
  Search.searchDisabled
    (Search.state
       (Search.dispatchAll Search.asciiUpperCase Search.sampleEvents
          (Search.mkPage
             (Search.loadSearchIndex (fun _ _ => inl Js.TypeError)
                                     (inl Js.TypeError) Search.initialState)
             None))).
Proof.
  apply failed_load_disables_search. repeat split.
Defined.

(** X22 on the fourth item of the shown page. *)
Lemma mouseenter_focuses_the_item_witness :
  Search.currentFocusIndex (Search.onMouseEnter 3 Search.shownPage) = 3%Z
  /\ Search.activeCount
       (Search.dropdownHTML (Search.onMouseEnter 3 Search.shownPage))
     = 1%nat.
Proof.
  assert (Hi : (3 < Search.itemCount Search.shownPage)%nat)
    by (vm_compute; lia).
  destruct (mouseenter_focuses_the_item 3 Search.shownPage Hi)
    as [Hfocus [_ [Hone _]]].
  split; [exact Hfocus | exact Hone].
Defined.

(** X25 on the fourth item of the shown page. *)
Lemma mouseleave_after_arrow_unfocuses_marked_item_witness :
  let st' := Search.onMouseLeave 3
               (Search.handleKeyboardNavigation "ArrowDown"
                  (Search.onMouseEnter 3 Search.shownPage)) in
  Search.currentFocusIndex st' = (-1)%Z
  /\ Search.activeCount (Search.dropdownHTML st') = 1%nat.
Proof.
  assert (Hi : (4 < Search.itemCount Search.shownPage)%nat)
    by (vm_compute; lia).
  split; [|reflexivity].
  exact (proj1 (mouseleave_after_arrow_unfocuses_marked_item
                  3 Search.shownPage Hi)).
Defined.

(** X27 when every step succeeds. *)
Lemma load_sets_index_iff_every_step_succeeds_witness :
  let fetched : Js.FetchOutcome :=
    inr (Js.mkResponse true 200 (inr (Js.JArray []))) in
  Search.searchIndex
    (Search.loadSearchIndex (fun _ _ => inr Search.emptyIndex) fetched
                            Search.initialState)
  = Some Search.emptyIndex.
Proof.
  intro fetched.
  apply (proj1 (load_sets_index_iff_every_step_succeeds
                  (fun _ _ => inr Search.emptyIndex) fetched
                  Search.initialState eq_refl)).
  exists (Js.mkResponse true 200 (inr (Js.JArray []))), (Js.JArray []).
  repeat split.
Defined.

(** X28 on an input of three spaces, with a dropdown shown. *)
Lemma blank_or_short_input_clears_witness :
  let st := Search.setInputValue (Js.lit "   ") Search.shownPage in
  Search.dropdownHTML (Search.onInput Search.asciiUpperCase st) = []
  /\ Search.dropdownShow (Search.onInput Search.asciiUpperCase st) = false.
Proof.
  intro st.
  rewrite (blank_or_short_input_clears Search.asciiUpperCase st
             (Search.fixedIndex Search.tenHits) eq_refl).
  - split; reflexivity.
  - left. repeat constructor.
Defined.

(** X23 on the body [{"number": [1, {"toString": 0}]}]. *)
Lemma click_failure_by_body_witness :
  let body :=
    Js.JObject
      [(Js.lit "number",
        Js.JArray [Js.JNumber 1;
                   Js.JObject [(Js.lit "toString", Js.JNumber 0)]])] in
  Play.onClick Play.integerToString (inr (Js.mkResponse true 200 (inr body))) []
  = Play.failureMessage.
Proof.
  intro body.
  apply (proj2 (click_failure_by_body Play.integerToString
                  (inr (Js.mkResponse true 200 (inr body))) [])).
  right. exists (Js.mkResponse true 200 (inr body)), body.
  repeat split.
Defined.

(** X24 on the body [{"value": 7}] with status 500. *)
Lemma click_without_number_field_witness :
  let body := Js.JObject [(Js.lit "value", Js.JNumber 7)] in
  Play.onClick Play.integerToString
               (inr (Js.mkResponse false 500 (inr body))) []
  = Play.successPrefix ++ Js.lit "undefined".
Proof.
  intro body.
  apply (click_without_number_field Play.integerToString
           (Js.mkResponse false 500 (inr body)) body []).
  - reflexivity.
  - discriminate.
  - intros members H. inversion H. reflexivity.
Defined.

(** ** Short queries on the page as it runs *)

Section ShortQueries.
Import Js Search.

Variable toUpperCase : Z -> jsstring.
Variable MiniSearch_loadJSON : Json -> LoadOptions -> Exn + SearchIndex.

(** The page when init has attached the listeners. *)
Local Abbreviation loaded fetched value focused :=
  (mkPage (loadSearchIndex MiniSearch_loadJSON fetched (startState value focused))
          None).

(** After the load either the index is there, or nothing is and the page
    is as it started but for the logged error. *)
Lemma unset_after_load :
  forall fetched value focused,
    searchIndex (state (loaded fetched value focused)) = None ->
    searchDisabled (state (loaded fetched value focused))
    /\ searchResults (state (loaded fetched value focused)) = [].
Proof.
  intros fetched value focused. cbn [state]. unfold loadSearchIndex.
  destruct fetched as [e | response]; [cbn; repeat split|].
  destruct (negb (ok response)); [cbn; repeat split|].
  destruct (json response) as [e | data]; [cbn; repeat split|].
  destruct (MiniSearch_loadJSON data loadOptions) as [e | built];
    [cbn; repeat split|].
  cbn. discriminate.
Qed.

Lemma searchIndex_dispatchAll :
  forall evs p,
    searchIndex (state (dispatchAll toUpperCase evs p)) = searchIndex (state p).
Proof.
  induction evs as [|ev evs IH]; intro p; [reflexivity|].
  rewrite dispatchAll_cons, IH. apply searchIndex_dispatch.
Qed.

Lemma disabled_dispatchAll :
  forall evs p,
    searchDisabled (state p) ->
    searchDisabled (state (dispatchAll toUpperCase evs p))
    /\ searchResults (state (dispatchAll toUpperCase evs p))
       = searchResults (state p).
Proof.
  induction evs as [|ev evs IH]; intros p Hinv;
    [split; [exact Hinv | reflexivity]|].
  rewrite dispatchAll_cons.
  destruct (dispatch_disabled toUpperCase ev p Hinv) as [Hnext Hres].
  destruct (IH _ Hnext) as [Hend Hres']. split; [exact Hend | congruence].
Qed.

(** C2.  On the page as it runs (the script started on an empty, hidden
    dropdown, the load done, any events handled since), performSearch on a
    query of fewer than two code units produces no dropdown: afterwards
    the dropdown is empty, the class 'show' is off, the stored result list
    is empty and the focus index is -1.  With the index loaded the four are
    assigned; with the index unset the call returns at once and they hold
    because nothing has been rendered since the start. *)
Theorem short_query_produces_no_dropdown :
  forall fetched value focused evs query,
    (length query < 2)%nat ->
    let st := state (dispatchAll toUpperCase evs (loaded fetched value focused)) in
    let st' := performSearch toUpperCase query st in
    dropdownHTML st' = []
    /\ dropdownShow st' = false
    /\ searchResults st' = []
    /\ currentFocusIndex st' = (-1)%Z.
Proof.
  intros fetched value focused evs query Hlen st st'.
  destruct (searchIndex st) as [index|] eqn:Hidx.
  - destruct (short_query_clears_dropdown toUpperCase query st index Hidx Hlen)
      as (H1 & H2 & H3 & H4 & _).
    repeat split; assumption.
  - assert (Hload : searchIndex (state (loaded fetched value focused)) = None).
    { rewrite <- (searchIndex_dispatchAll evs). exact Hidx. }
    destruct (unset_after_load fetched value focused Hload) as [Hdis Hres].
    destruct (disabled_dispatchAll evs _ Hdis) as [(_ & Hhtml & Hshow & Hfocus) Hres'].
    fold st in Hhtml, Hshow, Hfocus, Hres'.
    subst st'. unfold performSearch. rewrite Hidx. cbn.
    rewrite Hhtml, Hshow, Hfocus, Hres', Hres. repeat split.
Qed.

End ShortQueries.

(** C2 on a page that the events have left showing eight items, where
    ["r"] is then searched for. *)
Lemma short_query_produces_no_dropdown_witness :
  let shown :=
    Search.state
      (Search.dispatchAll Search.asciiUpperCase Search.browseEvents
         (Search.mkPage
            (Search.loadSearchIndex
               (fun _ _ => inr (Search.fixedIndex Search.tenHits))
               (inr (Js.mkResponse true 200 (inr (Js.JArray []))))
               (Search.startState [] true))
            None)) in
  Search.itemCount shown = 8%nat
  /\ Search.dropdownHTML
       (Search.performSearch Search.asciiUpperCase (Js.lit "r") shown) = []
  /\ Search.dropdownShow
       (Search.performSearch Search.asciiUpperCase (Js.lit "r") shown) = false.
Proof.
  intro shown. split; [reflexivity|].
  assert (Hlen : (length (Js.lit "r") < 2)%nat) by (vm_compute; lia).
  destruct (short_query_produces_no_dropdown Search.asciiUpperCase
              (fun _ _ => inr (Search.fixedIndex Search.tenHits))
              (inr (Js.mkResponse true 200 (inr (Js.JArray []))))
              [] true Search.browseEvents (Js.lit "r") Hlen)
    as [Hhtml [Hshow _]].
  split; [exact Hhtml | exact Hshow].
Defined.
